(** * Interactive code-execution sessions (app.py)

    A shallow embedding of the Flask session engine of [app.py]: the
    worker loops ([output_reader], [error_reader], [input_writer]), the
    four request handlers ([execute_code], [provide_input], [check_status],
    [terminate_session]) and the reaper sweep ([cleanup_old_sessions]).

    Modelling choices.
    - Text is [string] (8-bit characters); [lower] and [rstrip] follow
      Python's [str.lower] and [str.rstrip] on the ASCII range.
    - A session object is shared between the registry and the worker
      threads, and outlives its registry entry.  Session objects therefore
      live in a store indexed by object identity, and the global dict
      [execution_sessions] maps a session id to such an identity.
    - The child process and the worker threads run concurrently with a
      handler.  What they do is given by a schedule of [action]s: a handler
      receives the actions that take place while it sleeps, between two
      iterations of its polling loop, and before it tests [process.poll()].
      The number of iterations a time-bounded loop gets is the length of its
      schedule.
    - Handlers do not interleave with each other or with the reaper. *)

From Stdlib Require Import ZArith Ascii String.
From stdpp Require Import base gmap strings list.

Local Open Scope Z_scope.
Local Open Scope nat_scope.

(** ** Text primitives *)

Module Text.

Definition newline : string := String "010"%char "".

(** [str.lower] on one character. *)
Definition lower_char (c : ascii) : ascii :=
  let n := nat_of_ascii c in
  if (65 <=? n) && (n <=? 90) then ascii_of_nat (n + 32) else c.

Fixpoint lower (s : string) : string :=
  match s with
  | EmptyString => EmptyString
  | String c s' => String (lower_char c) (lower s')
  end.

(** The ASCII characters for which [str.isspace] holds. *)
Definition is_space (c : ascii) : bool :=
  let n := nat_of_ascii c in
  ((9 <=? n) && (n <=? 13)) || ((28 <=? n) && (n <=? 32)).

(** [str.rstrip()] with no argument. *)
Fixpoint rstrip (s : string) : string :=
  match s with
  | EmptyString => EmptyString
  | String c s' =>
      match rstrip s' with
      | EmptyString => if is_space c then EmptyString else String c EmptyString
      | r => String c r
      end
  end.

Fixpoint startswith (p s : string) : bool :=
  match p, s with
  | EmptyString, _ => true
  | String a p', String b s' => if decide (a = b) then startswith p' s' else false
  | String _ _, EmptyString => false
  end.

(** [sub in s]. *)
Fixpoint str_in (sub s : string) : bool :=
  startswith sub s ||
  match s with
  | EmptyString => false
  | String _ s' => str_in sub s'
  end.

(** [sep.join(parts)]. *)
Fixpoint join (sep : string) (parts : list string) : string :=
  match parts with
  | [] => ""
  | [x] => x
  | x :: rest => x +:+ sep +:+ join sep rest
  end.

End Text.

(** The keyword list written out in [output_reader] and [provide_input]. *)
Definition keywords : list string := ["input"; "enter"; ":"; "?"].

(** [any(keyword in text for keyword in ['input', 'enter', ':', '?'])]. *)
Definition any_keyword_in (text : string) : bool :=
  existsb (fun keyword => Text.str_in keyword text) keywords.

(** A text contains one of the four keywords as a substring. *)
Definition contains_keyword (text : string) : Prop :=
  exists keyword pre post,
    (keyword = "input" \/ keyword = "enter" \/ keyword = ":" \/ keyword = "?")
    /\ text = pre +:+ keyword +:+ post.

(** ** Processes and sessions *)

Inductive signal := SIGTERM | SIGKILL | TerminateProcess.

(** The [subprocess.Popen] object of a session, with the parent's ends of
    the three pipes. *)
Record Popen := mkPopen {
  returncode : option Z;        (* what [poll()] returns *)
  stdin_buffer : list string;   (* written, not yet flushed *)
  stdin_pipe : list string;     (* delivered to the child *)
  stdin_closed : bool;
  stdin_broken : bool;          (* a write would raise *)
  stdout_closed : bool;
  stderr_closed : bool;
  signals : list signal
}.

Inductive msg_type := output | error.

Record ExecutionSession := mkSession {
  session_id : string;
  process : Popen;
  input_queue : list (option string);      (* [None] is the poison pill *)
  output_queue : list (msg_type * string);
  temp_files : list string;
  is_waiting_for_input : bool;
  is_complete : bool;
  final_output : string;
  error_output : string
}.

Definition with_process (f : Popen -> Popen) (s : ExecutionSession) : ExecutionSession :=
  mkSession (session_id s) (f (process s)) (input_queue s) (output_queue s)
    (temp_files s) (is_waiting_for_input s) (is_complete s)
    (final_output s) (error_output s).

Definition with_input_queue (q : list (option string)) (s : ExecutionSession) :=
  mkSession (session_id s) (process s) q (output_queue s)
    (temp_files s) (is_waiting_for_input s) (is_complete s)
    (final_output s) (error_output s).

Definition with_output_queue (q : list (msg_type * string)) (s : ExecutionSession) :=
  mkSession (session_id s) (process s) (input_queue s) q
    (temp_files s) (is_waiting_for_input s) (is_complete s)
    (final_output s) (error_output s).

Definition with_waiting (b : bool) (s : ExecutionSession) :=
  mkSession (session_id s) (process s) (input_queue s) (output_queue s)
    (temp_files s) b (is_complete s) (final_output s) (error_output s).

Definition with_complete (b : bool) (s : ExecutionSession) :=
  mkSession (session_id s) (process s) (input_queue s) (output_queue s)
    (temp_files s) (is_waiting_for_input s) b (final_output s) (error_output s).

Definition with_final (out err : string) (s : ExecutionSession) :=
  mkSession (session_id s) (process s) (input_queue s) (output_queue s)
    (temp_files s) (is_waiting_for_input s) (is_complete s) out err.

(** [q.put(x)] on either queue. *)
Definition put {A} (x : A) (q : list A) : list A := q ++ [x].

Definition inq_put (x : option string) (s : ExecutionSession) :=
  with_input_queue (put x (input_queue s)) s.

Definition outq_put (m : msg_type * string) (s : ExecutionSession) :=
  with_output_queue (put m (output_queue s)) s.

(** [proc.poll() is not None]. *)
Definition exited (s : ExecutionSession) : bool :=
  match returncode (process s) with Some _ => true | None => false end.

Definition close_stdin (p : Popen) : Popen :=
  mkPopen (returncode p) (stdin_buffer p) (stdin_pipe p) true (stdin_broken p)
    (stdout_closed p) (stderr_closed p) (signals p).

Definition close_stdout (p : Popen) : Popen :=
  mkPopen (returncode p) (stdin_buffer p) (stdin_pipe p) (stdin_closed p)
    (stdin_broken p) true (stderr_closed p) (signals p).

Definition close_stderr (p : Popen) : Popen :=
  mkPopen (returncode p) (stdin_buffer p) (stdin_pipe p) (stdin_closed p)
    (stdin_broken p) (stdout_closed p) true (signals p).

Definition stdin_write (data : string) (p : Popen) : Popen :=
  mkPopen (returncode p) (stdin_buffer p ++ [data]) (stdin_pipe p)
    (stdin_closed p) (stdin_broken p) (stdout_closed p) (stderr_closed p)
    (signals p).

Definition stdin_flush (p : Popen) : Popen :=
  mkPopen (returncode p) [] (stdin_pipe p ++ stdin_buffer p)
    (stdin_closed p) (stdin_broken p) (stdout_closed p) (stderr_closed p)
    (signals p).

Definition set_returncode (rc : Z) (p : Popen) : Popen :=
  mkPopen (Some rc) (stdin_buffer p) (stdin_pipe p) (stdin_closed p)
    (stdin_broken p) (stdout_closed p) (stderr_closed p) (signals p).

Definition break_stdin (p : Popen) : Popen :=
  mkPopen (returncode p) (stdin_buffer p) (stdin_pipe p) (stdin_closed p)
    true (stdout_closed p) (stderr_closed p) (signals p).

Definition send_signal (sg : signal) (p : Popen) : Popen :=
  mkPopen (returncode p) (stdin_buffer p) (stdin_pipe p) (stdin_closed p)
    (stdin_broken p) (stdout_closed p) (stderr_closed p) (signals p ++ [sg]).

(** ** Worker loops *)

Inductive loop_ctl := Continue | Break.

(** One pass through the [while True] body of [output_reader], [line] being
    what [proc.stdout.readline()] returned ("" at end of file). *)
Definition output_reader_iter (line : string) (s : ExecutionSession)
  : loop_ctl * ExecutionSession :=
  if bool_decide (line = "") && exited s then (Break, s)
  else if bool_decide (line = "") then (Continue, s)
  else
    let s1 := outq_put (output, Text.rstrip line) s in
    if any_keyword_in (Text.lower line)
    then (Continue, with_waiting true s1)
    else (Continue, s1).

(** One pass through the body of [error_reader]; it has no access to the
    session, only to the process and the queue. *)
Definition error_reader_iter (line : string) (s : ExecutionSession)
  : loop_ctl * ExecutionSession :=
  if bool_decide (line = "") && exited s then (Break, s)
  else if bool_decide (line = "") then (Continue, s)
  else (Continue, outq_put (error, Text.rstrip line) s).

(** One pass through the body of [input_writer].  An empty queue stands for
    [inq.get(timeout=0.1)] raising [queue.Empty]. *)
Definition input_writer_iter (s : ExecutionSession) : loop_ctl * ExecutionSession :=
  match input_queue s with
  | [] => if exited s then (Break, s) else (Continue, s)
  | None :: q => (Break, with_input_queue q s)
  | Some input_data :: q =>
      let s1 := with_input_queue q s in
      if exited s1 then (Continue, s1)
      else if stdin_broken (process s1) then (Break, s1)
      else (Continue,
            with_process (fun p => stdin_flush (stdin_write (input_data +:+ Text.newline) p)) s1)
  end.

(** What a blocking [readline()] of a reader thread yields. *)
Inductive read_result := ReadLine (line : string) | ReadFault (e : string).

(** The activity of the child process and of the three worker threads of
    one session. *)
Inductive action :=
| StdoutRead (r : read_result)   (* [output_reader] gets past its [readline()] *)
| StderrRead (r : read_result)   (* [error_reader] gets past its [readline()] *)
| InputWriterTurn                (* [input_writer] runs its loop body once *)
| ProcessExit (rc : Z)           (* the child exits by itself *)
| StdinBreaks.                   (* the child closes its end of stdin *)

(** A reader thread has ended when it has closed its stream, the writer
    thread when it has closed stdin. *)
Definition act (a : action) (s : ExecutionSession) : ExecutionSession :=
  match a with
  | StdoutRead r =>
      if stdout_closed (process s) then s
      else match r with
           | ReadLine line =>
               match output_reader_iter line s with
               | (Continue, s') => s'
               | (Break, s') => with_process close_stdout s'
               end
           | ReadFault e =>
               with_process close_stdout
                 (outq_put (error, "Output reader error: " +:+ e) s)
           end
  | StderrRead r =>
      if stderr_closed (process s) then s
      else match r with
           | ReadLine line =>
               match error_reader_iter line s with
               | (Continue, s') => s'
               | (Break, s') => with_process close_stderr s'
               end
           | ReadFault e =>
               with_process close_stderr
                 (outq_put (error, "Error reader error: " +:+ e) s)
           end
  | InputWriterTurn =>
      if stdin_closed (process s) then s
      else match input_writer_iter s with
           | (Continue, s') => s'
           | (Break, s') => with_process close_stdin s'
           end
  | ProcessExit rc =>
      match returncode (process s) with
      | Some _ => s
      | None => with_process (set_returncode rc) s
      end
  | StdinBreaks => with_process break_stdin s
  end.

Definition acts (evs : list action) (s : ExecutionSession) : ExecutionSession :=
  foldl (fun s a => act a s) s evs.

(** ** The draining loops of the handlers *)

(** [while time.time() < timeout: try get_nowait() ... except queue.Empty:
    if poll() is not None: break; time.sleep(0.05)], as [execute_code] and
    [provide_input] both write it.  Each element of [ticks] is one
    iteration the clock allows, with the actions that precede it. *)
Fixpoint drain_window (ticks : list (list action)) (s : ExecutionSession)
    (outs errs : list string) : ExecutionSession * list string * list string :=
  match ticks with
  | [] => (s, outs, errs)
  | evs :: ticks' =>
      let s := acts evs s in
      match output_queue s with
      | (output, msg) :: q => drain_window ticks' (with_output_queue q s) (outs ++ [msg]) errs
      | (error, msg) :: q => drain_window ticks' (with_output_queue q s) outs (errs ++ [msg])
      | [] => if exited s then (s, outs, errs) else drain_window ticks' s outs errs
      end
  end.

Fixpoint drain_queue (q : list (msg_type * string)) (outs errs : list string)
  : list string * list string :=
  match q with
  | [] => (outs, errs)
  | (output, msg) :: q' => drain_queue q' (outs ++ [msg]) errs
  | (error, msg) :: q' => drain_queue q' outs (errs ++ [msg])
  end.

(** [while not q.empty(): get_nowait() ...]: everything queued right now. *)
Definition drain_now (s : ExecutionSession) (outs errs : list string)
  : ExecutionSession * list string * list string :=
  let '(outs', errs') := drain_queue (output_queue s) outs errs in
  (with_output_queue [] s, outs', errs').

Record Window := mkWindow {
  asleep : list action;          (* during the initial [time.sleep(0.3)] *)
  polling : list (list action);  (* the iterations of the bounded loop *)
  settling : list action         (* before the following [process.poll()] *)
}.

(** [time.sleep(0.3)], the bounded loop from empty lists, and the moment
    before the handler looks at [process.poll()]: the lines captured and the
    session as the handler then finds it. *)
Definition sample (win : Window) (s : ExecutionSession)
  : ExecutionSession * list string * list string :=
  let s := acts (asleep win) s in
  let '(s, outs, errs) := drain_window (polling win) s [] [] in
  (acts (settling win) s, outs, errs).

(** ** Responses *)

Inductive body :=
| Error (error : string) (details : option string)
| Completed (output error : string)
| Running (session_id : option string) (output error : string) (waiting_for_input : bool)
| Terminated.

(** [jsonify(...)] with its HTTP status. *)
Definition response : Type := body * nat.

Definition invalid_session : response := (Error "Invalid session ID" None, 400).

(** ** The world: session objects, the registry, scratch files *)

Record World := mkWorld {
  objects : gmap nat ExecutionSession;     (* live session objects, by identity *)
  execution_sessions : gmap string nat;    (* the global dict *)
  files : gmap string bool                 (* existing paths; [true] for a directory *)
}.

(** [execution_sessions[session_id]], the object included. *)
Definition lookup_session (w : World) (id : string) : option (nat * ExecutionSession) :=
  match execution_sessions w !! id with
  | Some r => match objects w !! r with
              | Some s => Some (r, s)
              | None => None
              end
  | None => None
  end.

(** Every registered id refers to a live object. *)
Definition registry_ok (w : World) : Prop :=
  forall id r, execution_sessions w !! id = Some r -> is_Some (objects w !! r).

Inductive run_outcome :=
| RunFileNotFound                       (* [FileNotFoundError] *)
| RunRaised (e : string)                (* any other exception *)
| RunCompleted (rc : Z) (stderr : string).

(** What the host gives a start request. *)
Record Host := mkHost {
  mkdtemp : string;
  uuid4 : string;
  subprocess_run : nat -> option (list string) -> run_outcome;   (* the n-th call *)
  Popen_start : list (option string) -> option string            (* [Some e]: raises [e] *)
}.

Record ExecuteRequest := { req_code : option string; req_language : option string }.
Record InputRequest := { req_session_id : option string; req_input : option string }.

Definition new_process : Popen := mkPopen None [] [] false false false false [].

(** The [ExecutionSession(...)] that [execute_code] constructs. *)
Definition new_session (session_id : string) (temp_files : list string) : ExecutionSession :=
  mkSession session_id new_process [] [] temp_files false false "" "".

(** The texts of the queue entries carrying one tag, in queue order. *)
Definition lines_of (ty : msg_type) (q : list (msg_type * string)) : list string :=
  omap (fun m => match ty, m.1 with
                 | output, output | error, error => Some m.2
                 | _, _ => None
                 end) q.

(** Everything a window's schedule holds, in order. *)
Definition all_actions (win : Window) : list action :=
  asleep win ++ concat (polling win) ++ settling win.

(** A session with its output queue put aside: what the workers' own state
    and the flag depend on. *)
Definition core (s : ExecutionSession) : ExecutionSession := with_output_queue [] s.

Section App.

Variable IS_WINDOWS : bool.

Definition sep : string := if IS_WINDOWS then "\" else "/".

Definition path_join (d f : string) : string := d +:+ sep +:+ f.

(** *** CodeExecutor *)

Definition get_file_extension (language : string) : string :=
  if decide (language = "python") then ".py"
  else if decide (language = "c") then ".c"
  else if decide (language = "cpp") then ".cpp"
  else ".txt".

Definition get_executable_extension : string :=
  if IS_WINDOWS then ".exe" else ".out".

Definition get_compile_command (filepath language output_path : string)
  : option (list string) :=
  if decide (language = "c") then
    if IS_WINDOWS then Some ["gcc"; filepath; "-o"; output_path]
    else Some ["clang"; filepath; "-o"; output_path]
  else if decide (language = "cpp") then
    if IS_WINDOWS then Some ["g++"; filepath; "-o"; output_path]
    else Some ["clang++"; filepath; "-o"; output_path]
  else None.

Definition get_run_command (filepath language : string) (executable_path : option string)
  : list (option string) :=
  if decide (language = "python") then [Some "python"; Some filepath]
  else if bool_decide (language ∈ ["c"; "cpp"]) then
    if IS_WINDOWS then [executable_path] else [executable_path]
  else [].

(** *** Scratch files *)

Definition under (dir p : string) : bool := Text.startswith (dir +:+ sep) p.

(** [shutil.rmtree(filepath)]. *)
Definition rmtree (dir : string) (fs : gmap string bool) : gmap string bool :=
  filter (fun kv => negb (under dir kv.1)) (delete dir fs).

(** The body of the loop of [cleanup_temp_files]. *)
Definition cleanup_one (fs : gmap string bool) (filepath : string) : gmap string bool :=
  match fs !! filepath with
  | Some true => rmtree filepath fs
  | Some false => delete filepath fs
  | None => fs
  end.

Definition cleanup_temp_files (temp_files : list string) (fs : gmap string bool)
  : gmap string bool :=
  foldl cleanup_one fs temp_files.

(** *** /execute *)

(** The compile step of [execute_code]: the executable path on success,
    or the way the step leaves the handler. *)
Inductive compiled :=
| Compiled (executable_path : option string)
| CompileReturn (r : response)     (* an early [return], after cleanup *)
| CompileRaise (e : string).       (* an exception, to the inner handler *)

Definition compiler_not_found : response :=
  (Error "Compiler not found"
     (Some "Please install a C/C++ compiler (gcc/g++ or clang/clang++)"), 400).

(** The command of the second [subprocess.run], in the handler of the
    first [FileNotFoundError]. *)
Definition retry_command (language code_file executable_path : string)
    (compile_cmd : option (list string)) : option (list string) :=
  if bool_decide (language = "c") && IS_WINDOWS
  then Some ["clang"; code_file; "-o"; executable_path]
  else if bool_decide (language = "cpp") && IS_WINDOWS
  then Some ["clang++"; code_file; "-o"; executable_path]
  else compile_cmd.

Definition check_returncode (executable_path : string) (rc : Z) (stderr : string)
  : compiled :=
  if bool_decide (rc ≠ 0%Z) then CompileReturn (Error "Compilation error" (Some stderr), 400)
  else Compiled (Some executable_path).

(** The second component lists the commands handed to [subprocess.run],
    in order. *)
Definition compile_step (h : Host) (language temp_dir code_file : string)
  : compiled * list (option (list string)) :=
  if bool_decide (language ∈ ["c"; "cpp"]) then
    let executable_path := path_join temp_dir ("program" +:+ get_executable_extension) in
    let compile_cmd := get_compile_command code_file language executable_path in
    match subprocess_run h 0 compile_cmd with
    | RunFileNotFound =>
        let compile_cmd' := retry_command language code_file executable_path compile_cmd in
        (match subprocess_run h 1 compile_cmd' with
         | RunFileNotFound => CompileReturn compiler_not_found
         | RunRaised e => CompileRaise e
         | RunCompleted rc stderr => check_returncode executable_path rc stderr
         end, [compile_cmd; compile_cmd'])
    | RunRaised e => (CompileRaise e, [compile_cmd])
    | RunCompleted rc stderr => (check_returncode executable_path rc stderr, [compile_cmd])
    end
  else (Compiled None, []).

(** [del execution_sessions[session_id]] after
    [cleanup_temp_files(session.temp_files)]; [r] holds the session as the
    handler leaves it. *)
Definition forget (session_id : string) (r : nat) (session : ExecutionSession)
    (w : World) : World :=
  mkWorld (<[r := session]> (objects w))
    (delete session_id (execution_sessions w))
    (cleanup_temp_files (temp_files session) (files w)).

Definition keep (r : nat) (session : ExecutionSession) (w : World) : World :=
  mkWorld (<[r := session]> (objects w)) (execution_sessions w) (files w).

(** [execution_sessions[session_id] = session] for a new object. *)
Definition register (session_id : string) (r : nat) (session : ExecutionSession)
    (fs : gmap string bool) (w : World) : World :=
  mkWorld (<[r := session]> (objects w))
    (<[session_id := r]> (execution_sessions w)) fs.

(** The text of the submitted program reaches the model only as the
    existence of the code file. *)
Definition execute_code (h : Host) (win : Window) (data : ExecuteRequest) (w : World)
  : response * World :=
  let language := Text.lower (default "python" (req_language data)) in
  if negb (bool_decide (language ∈ ["python"; "c"; "cpp"])) then
    ((Error "Unsupported language" None, 400), w)
  else
    let temp_dir := mkdtemp h in
    let fs := <[temp_dir := true]> (files w) in
    let code_file := path_join temp_dir ("code" +:+ get_file_extension language) in
    let fs := <[code_file := false]> fs in
    let temp_files := [temp_dir; code_file] in
    let released fs temp_files :=
      mkWorld (objects w) (execution_sessions w) (cleanup_temp_files temp_files fs) in
    match (compile_step h language temp_dir code_file).1 with
    | CompileReturn r => (r, released fs temp_files)
    | CompileRaise e => ((Error e None, 500), released fs temp_files)
    | Compiled executable_path =>
        let fs := match executable_path with
                  | Some exe => <[exe := false]> fs   (* written by the compiler *)
                  | None => fs
                  end in
        let temp_files := temp_files ++ option_list executable_path in
        let run_cmd := get_run_command code_file language executable_path in
        match Popen_start h run_cmd with
        | Some e => ((Error e None, 500), released fs temp_files)
        | None =>
            let session_id := uuid4 h in
            let r := fresh (dom (objects w)) in
            let session := new_session session_id temp_files in
            let w := register session_id r session fs w in
            let '(session, initial_output, initial_errors) := sample win session in
            if exited session then
              let session := with_complete true session in
              let session := with_final (Text.join Text.newline initial_output)
                               (Text.join Text.newline initial_errors) session in
              let session := inq_put None session in
              ((Completed (final_output session) (error_output session), 200),
               forget session_id r session w)
            else
              ((Running (Some session_id)
                  (Text.join Text.newline initial_output)
                  (Text.join Text.newline initial_errors)
                  (is_waiting_for_input session
                   || (bool_decide (initial_output = []) && bool_decide (initial_errors = []))),
                200),
               keep r session w)
        end
    end.

(** A registered id without an object cannot arise ([registry_ok]); the
    handlers answer it like any other exception. *)
Definition no_object : response := (Error "session object missing" None, 500).

(** *** /input *)

Definition provide_input (win : Window) (data : InputRequest) (w : World)
  : response * World :=
  let session_id := default "" (req_session_id data) in
  let user_input := default "" (req_input data) in
  match execution_sessions w !! session_id with
  | None => (invalid_session, w)
  | Some r =>
      match objects w !! r with
      | None => (no_object, w)
      | Some session =>
          if exited session then
            ((Completed "" "Process has already terminated", 200),
             forget session_id r session w)
          else
            let session := inq_put (Some user_input) session in
            let session := with_waiting false session in
            let '(session, output_lines, error_lines) := sample win session in
            if exited session then
              let session := with_complete true session in
              let '(session, output_lines, error_lines) :=
                drain_now session output_lines error_lines in
              let session := with_final (Text.join Text.newline output_lines)
                               (Text.join Text.newline error_lines) session in
              let session := inq_put None session in
              ((Completed (final_output session) (error_output session), 200),
               forget session_id r session w)
            else
              let session := with_waiting false session in
              let session :=
                match last output_lines with
                | Some line =>
                    let last_line := Text.lower line in
                    if any_keyword_in last_line then with_waiting true session
                    else session
                | None => session
                end in
              ((Running None (Text.join Text.newline output_lines)
                  (Text.join Text.newline error_lines)
                  (is_waiting_for_input session), 200),
               keep r session w)
      end
  end.

(** *** /status/<session_id> *)

Definition check_status (settle : list action) (session_id : string) (w : World)
  : response * World :=
  match execution_sessions w !! session_id with
  | None => (invalid_session, w)
  | Some r =>
      match objects w !! r with
      | None => (no_object, w)
      | Some session =>
          let '(session, output_lines, error_lines) := drain_now session [] [] in
          let session := acts settle session in
          if exited session then
            let session := with_complete true session in
            let session := inq_put None session in
            ((Completed (Text.join Text.newline output_lines)
                (Text.join Text.newline error_lines), 200),
             forget session_id r session w)
          else
            ((Running None (Text.join Text.newline output_lines)
                (Text.join Text.newline error_lines)
                (is_waiting_for_input session), 200),
             keep r session w)
      end
  end.

(** *** /terminate/<session_id> *)

(** [process.kill()]; the child is gone afterwards. *)
Definition kill (p : Popen) : Popen :=
  match returncode p with
  | Some _ => send_signal SIGKILL p
  | None => set_returncode (-9)%Z (send_signal SIGKILL p)
  end.

(** [waiting] is what happens during [process.wait(timeout=2)]. *)
Definition terminate_session (waiting : list action) (session_id : string) (w : World)
  : response * World :=
  match execution_sessions w !! session_id with
  | None => (invalid_session, w)
  | Some r =>
      match objects w !! r with
      | None => (no_object, w)
      | Some session =>
          let session :=
            if exited session then session
            else
              let session :=
                if IS_WINDOWS then with_process (send_signal TerminateProcess) session
                else with_process (send_signal SIGTERM) session in
              let session := acts waiting session in
              if exited session then session        (* [wait] returned *)
              else with_process kill session        (* [TimeoutExpired] *)
          in
          let session := inq_put None session in
          ((Terminated, 200), forget session_id r session w)
      end
  end.

(** *** The reaper *)

(** The body of the second loop of [cleanup_old_sessions]. *)
Definition reap (w : World) (session_id : string) : World :=
  match lookup_session w session_id with
  | Some (r, session) =>
      mkWorld (objects w) (delete session_id (execution_sessions w))
        (cleanup_temp_files (temp_files session) (files w))
  | None => w
  end.

(** The first loop: the ids whose process has exited. *)
Definition sessions_to_remove (w : World) : list string :=
  omap (fun '(session_id, r) =>
          match objects w !! r with
          | Some session => if exited session then Some session_id else None
          | None => None
          end)
       (map_to_list (execution_sessions w)).

(** One pass through the [while True] body of [cleanup_old_sessions],
    after its [time.sleep(60)]. *)
Definition cleanup_old_sessions (w : World) : World :=
  foldl reap w (sessions_to_remove w).

End App.

(** ** Sequences of requests *)

(** What reaches the server: the four routes, a reaper pass, and the
    background activity of the session object [r]. *)
Inductive request :=
| Execute (h : Host) (win : Window) (data : ExecuteRequest)
| Input (win : Window) (data : InputRequest)
| Status (settle : list action) (session_id : string)
| Terminate (waiting : list action) (session_id : string)
| Reap
| Background (r : nat) (evs : list action).

Definition serve (IS_WINDOWS : bool) (q : request) (w : World) : option response * World :=
  match q with
  | Execute h win data => let '(resp, w') := execute_code IS_WINDOWS h win data w in (Some resp, w')
  | Input win data => let '(resp, w') := provide_input IS_WINDOWS win data w in (Some resp, w')
  | Status settle id => let '(resp, w') := check_status IS_WINDOWS settle id w in (Some resp, w')
  | Terminate waiting id =>
      let '(resp, w') := terminate_session IS_WINDOWS waiting id w in (Some resp, w')
  | Reap => (None, cleanup_old_sessions IS_WINDOWS w)
  | Background r evs =>
      (None, mkWorld (alter (acts evs) r (objects w)) (execution_sessions w) (files w))
  end.

Definition serve_all (IS_WINDOWS : bool) (qs : list request) (w : World) : World :=
  foldl (fun w q => (serve IS_WINDOWS q w).2) w qs.

(** The session id a request is about. *)
Definition subject (q : request) : option string :=
  match q with
  | Execute h _ _ => Some (uuid4 h)
  | Input _ data => Some (default "" (req_session_id data))
  | Status _ id | Terminate _ id => Some id
  | Reap | Background _ _ => None
  end.

Definition final_status (resp : option response) : Prop :=
  match resp with
  | Some (Completed _ _, _) | Some (Terminated, _) => True
  | _ => False
  end.

(** A later start request that happens to draw the id [id] again. *)
Definition redraws (id : string) (q : request) : Prop :=
  match q with
  | Execute h _ _ => uuid4 h = id
  | _ => False
  end.

(** ** Vocabulary of the specification *)

(** The last captured line that is not empty, the line the specification
    names for the recomputation of the flag in [provide_input]. *)
Definition last_nonempty (lines : list string) : option string :=
  last (filter (fun line => line <> "") lines).

Definition waiting_by_last_nonempty (lines : list string) : bool :=
  match last_nonempty lines with
  | Some line => any_keyword_in (Text.lower line)
  | None => false
  end.

(** What [provide_input] computes at lines 402-406. *)
Definition waiting_by_last (lines : list string) : bool :=
  match last lines with
  | Some line => any_keyword_in (Text.lower line)
  | None => false
  end.

(** The program named by a command line. *)
Definition compiler_of (cmd : option (list string)) : option string :=
  match cmd with
  | Some (prog :: _) => Some prog
  | _ => None
  end.

(** The language of a start request is one of the three the server runs. *)
Definition supported (data : ExecuteRequest) : bool :=
  bool_decide (Text.lower (default "python" (req_language data)) ∈ ["python"; "c"; "cpp"]).

(** New files [names] inside a new directory [d]. *)
Definition with_scratch (d : string) (names : list string) (fs : gmap string bool)
  : gmap string bool :=
  foldl (fun fs n => <[n := false]> fs) (<[d := true]> fs) names.

(** ** Sample worlds *)

Module Sample.

Definition scratch : gmap string bool :=
  {[ "/tmp/x" := true; "/tmp/x/code.py" := false; "/tmp/keep" := false ]}.

(** A registered session whose process runs. *)
Definition running : ExecutionSession :=
  mkSession "abc" new_process [] [] ["/tmp/x"; "/tmp/x/code.py"] true false "" "".

(** A registered session whose process has exited, one line undelivered. *)
Definition done_ : ExecutionSession :=
  mkSession "abc" (set_returncode 0%Z new_process) [] [(output, "42")]
    ["/tmp/x"; "/tmp/x/code.py"] false false "" "".

Definition world_running : World := mkWorld {[ 0 := running ]} {[ "abc" := 0 ]} scratch.
Definition world_done : World := mkWorld {[ 0 := done_ ]} {[ "abc" := 0 ]} scratch.
Definition world_empty : World := mkWorld ∅ ∅ ∅.

Definition to_abc (text : string) : InputRequest :=
  {| req_session_id := Some "abc"; req_input := Some text |}.

Definition quiet : Window := mkWindow [] [[]; []] [].

(** The program prints a prompt, then a blank line, and waits. *)
Definition prompt_then_blank : Window :=
  mkWindow [StdoutRead (ReadLine ("Enter name:" +:+ Text.newline));
            StdoutRead (ReadLine Text.newline)]
           [[]; []; []] [].

Definition host (run : nat -> option (list string) -> run_outcome)
    (start : option string) : Host :=
  mkHost "/tmp/z" "u1" run (fun _ => start).

Definition python_program : ExecuteRequest :=
  {| req_code := Some "name = input()"; req_language := Some "python" |}.

Definition c_program : ExecuteRequest :=
  {| req_code := Some "int main(){}"; req_language := Some "c" |}.

(** A registered session with a running process and three entries queued. *)
Definition queued : ExecutionSession :=
  mkSession "abc" new_process [] [(output, "a"); (error, "e"); (output, "b")]
    ["/tmp/x"; "/tmp/x/code.py"] true false "" "".

Definition world_queued : World := mkWorld {[ 0 := queued ]} {[ "abc" := 0 ]} scratch.

End Sample.

(** ** Streams of lines, and the client's input loop *)

(** The texts the stdout reader queues for the lines among [evs]. *)
Definition stdout_texts (evs : list action) : list string :=
  omap (fun a => match a with
                 | StdoutRead (ReadLine line) =>
                     if bool_decide (line = "") then None else Some (Text.rstrip line)
                 | _ => None
                 end) evs.

(** The texts the stderr reader queues for the lines among [evs]. *)
Definition stderr_texts (evs : list action) : list string :=
  omap (fun a => match a with
                 | StderrRead (ReadLine line) =>
                     if bool_decide (line = "") then None else Some (Text.rstrip line)
                 | _ => None
                 end) evs.

(** One round of the loop over [inputs] in [test_cpp_code] and
    [test_c_code] of client.py: what reaches the server during the client's
    [time.sleep(0.5)] (worker activity, passes of the reaper, requests of
    other clients), the text posted, and the window of the server's
    handler. *)
Record Round := mkRound {
  round_idle : list request;
  round_input : string;
  round_window : Window
}.

(** [for inp in inputs: time.sleep(0.5); result = post(/input).json();
    if result.get('status') == 'completed': break], with the results it
    prints. *)
Fixpoint post_inputs (IS_WINDOWS : bool) (session_id : string) (inputs : list Round)
    (w : World) : list response * World :=
  match inputs with
  | [] => ([], w)
  | rd :: rest =>
      let w := serve_all IS_WINDOWS (round_idle rd) w in
      let '(result, w) :=
        provide_input IS_WINDOWS (round_window rd)
          {| req_session_id := Some session_id; req_input := Some (round_input rd) |} w in
      match result.1 with
      | Completed _ _ => ([result], w)
      | _ =>
          let '(results, w) := post_inputs IS_WINDOWS session_id rest w in
          (result :: results, w)
      end
  end.

(** A request that is worker activity. *)
Definition is_background (q : request) : Prop :=
  match q with
  | Background _ _ => True
  | _ => False
  end.

(** ** Deletions that fail *)

(** The body of the loop of [cleanup_temp_files] with its [except] branch.
    [fails filepath] says that [shutil.rmtree] or [os.unlink] raises for
    [filepath]; the handler prints and the loop goes on.  A failed
    [os.unlink] leaves the file; a failed [shutil.rmtree] leaves the
    directory and, of the paths below it, those that [survives] names. *)
Definition cleanup_one_or_fail (IS_WINDOWS : bool) (fails : string -> bool)
    (survives : string -> string -> bool) (fs : gmap string bool) (filepath : string)
  : gmap string bool :=
  match fs !! filepath with
  | Some true =>
      if fails filepath
      then filter (fun kv => negb (under IS_WINDOWS filepath kv.1) || survives filepath kv.1) fs
      else rmtree IS_WINDOWS filepath fs
  | Some false => if fails filepath then fs else delete filepath fs
  | None => fs
  end.

Definition cleanup_temp_files_or_fail (IS_WINDOWS : bool) (fails : string -> bool)
    (survives : string -> string -> bool) (temp_files : list string)
    (fs : gmap string bool) : gmap string bool :=
  foldl (cleanup_one_or_fail IS_WINDOWS fails survives) fs temp_files.

(** How a request about a registered session leaves the world: the session
    object replaced, and either the id kept or the session forgotten. *)
Definition settled (IS_WINDOWS : bool) (id : string) (r : nat) (s : ExecutionSession)
    (w : World) (resp : response) (w' : World) : Prop :=
  exists s', temp_files s' = temp_files s
    /\ ((final_status (Some resp) /\ resp.2 = 200 /\ w' = forget IS_WINDOWS id r s' w)
        \/ ((exists out err wfi, resp = (Running None out err wfi, 200))
            /\ exited s' = false /\ w' = keep r s' w)).

(** * Properties *)

(** ** Text *)

Section TextFacts.
Import Text.

Lemma app_cons a s t : String a s +:+ t = String a (s +:+ t).
Proof. reflexivity. Qed.

Lemma app_nil_l s : "" +:+ s = s.
Proof. reflexivity. Qed.

Lemma startswith_app p s : startswith p (p +:+ s) = true.
Proof.
  induction p as [|a p IH]; [done|].
  rewrite app_cons. simpl. by rewrite decide_True.
Qed.

Lemma startswith_spec p s : startswith p s = true <-> exists post, s = p +:+ post.
Proof.
  split.
  - revert s. induction p as [|a p IH]; intros s H.
    + by exists s.
    + destruct s as [|b s]; [done|]. simpl in H.
      destruct (decide (a = b)) as [->|]; [|done].
      destruct (IH _ H) as [post ->]. by exists post.
  - intros [post ->]. apply startswith_app.
Qed.

Lemma str_in_spec sub s :
  str_in sub s = true <-> exists pre post, s = pre +:+ sub +:+ post.
Proof.
  induction s as [|a s IH]; simpl; rewrite orb_true_iff.
  - split.
    + intros [H|H]; [|done]. apply startswith_spec in H as [post H].
      by exists "", post.
    + intros ([|b pre] & post & H); [|done]. left.
      rewrite app_nil_l in H. apply startswith_spec. by exists post.
  - rewrite IH. split.
    + intros [H|(pre & post & ->)].
      * apply startswith_spec in H as [post H]. by exists "", post.
      * by exists (String a pre), post.
    + intros ([|b pre] & post & H).
      * left. apply startswith_spec. by exists post.
      * right. rewrite app_cons in H. injection H as _ ->. by exists pre, post.
Qed.

End TextFacts.

Lemma any_keyword_in_spec text : any_keyword_in text = true <-> contains_keyword text.
Proof.
  unfold any_keyword_in, keywords, contains_keyword. simpl.
  rewrite !orb_true_iff, !str_in_spec. split.
  - intros [(pre & post & H)|[(pre & post & H)|[(pre & post & H)|[(pre & post & H)|H]]]];
      [..|discriminate H]; eexists _, pre, post; (split; [|exact H]); auto.
  - intros (keyword & pre & post & [->|[->|[->| ->]]] & H); eauto 10.
Qed.

(** ** The readers (C7) *)

Lemma output_reader_iter_waiting line s :
  is_waiting_for_input (output_reader_iter line s).2
  = is_waiting_for_input s || any_keyword_in (Text.lower line).
Proof.
  unfold output_reader_iter.
  destruct (bool_decide_reflect (line = "")) as [->|Hne]; simpl.
  - rewrite orb_false_r. by destruct (exited s).
  - destruct (any_keyword_in (Text.lower line)); simpl;
      [by rewrite orb_true_r | by rewrite orb_false_r].
Qed.

Lemma error_reader_iter_waiting line s :
  is_waiting_for_input (error_reader_iter line s).2 = is_waiting_for_input s.
Proof.
  unfold error_reader_iter.
  destruct (bool_decide (line = "")); simpl; [by destruct (exited s)|done].
Qed.

(** C7: on a line read from stdout, [output_reader] sets the waiting flag
    when the lowercased line contains "input", "enter", ":" or "?", and
    leaves the flag as it was when it contains none of them; whatever the
    stderr reader reads, a line or a fault, the flag stays as it was. *)
Theorem reader_heuristic :
  (forall line s,
      contains_keyword (Text.lower line) ->
      is_waiting_for_input (output_reader_iter line s).2 = true)
  /\ (forall line s,
      ~ contains_keyword (Text.lower line) ->
      is_waiting_for_input (output_reader_iter line s).2 = is_waiting_for_input s)
  /\ (forall line s,
      is_waiting_for_input (error_reader_iter line s).2 = is_waiting_for_input s)
  /\ (forall r s,
      is_waiting_for_input (act (StderrRead r) s) = is_waiting_for_input s).
Proof.
  split; [|split; [|split]].
  - intros line s H%any_keyword_in_spec.
    rewrite output_reader_iter_waiting, H. apply orb_true_r.
  - intros line s H. rewrite output_reader_iter_waiting.
    destruct (any_keyword_in (Text.lower line)) eqn:E.
    + by apply any_keyword_in_spec in E.
    + apply orb_false_r.
  - apply error_reader_iter_waiting.
  - intros r s. simpl. destruct (stderr_closed (process s)); [done|].
    destruct r as [line|e]; [|done].
    pose proof (error_reader_iter_waiting line s) as H.
    by destruct (error_reader_iter line s) as [[] s'].
Qed.

Lemma reader_heuristic_witness :
  is_waiting_for_input
    (output_reader_iter ("Enter your name: " +:+ Text.newline)
       (mkSession "s" new_process [] [] [] false false "" "")).2 = true
  /\ is_waiting_for_input
    (output_reader_iter ("Hello" +:+ Text.newline)
       (mkSession "s" new_process [] [] [] false false "" "")).2 = false.
Proof.
  destruct reader_heuristic as (Hset & Hkeep & _). split.
  - apply Hset. apply any_keyword_in_spec. reflexivity.
  - rewrite Hkeep; [reflexivity|].
    intros H%any_keyword_in_spec. discriminate H.
Defined.

(** ** The input feeder (C9) *)

(** C9: a value taken from the input queue is dropped, with nothing written,
    when the process has exited; otherwise the value and one newline are
    written to stdin and flushed at once (nothing stays buffered), provided
    the write itself does not fault; the poison pill ends the loop; and
    when the loop ends the feeder closes stdin. *)
Theorem input_writer_dequeue :
  (forall s data q,
      input_queue s = Some data :: q -> exited s = true ->
      exists s', input_writer_iter s = (Continue, s')
                 /\ input_queue s' = q /\ process s' = process s)
  /\ (forall s data q,
      input_queue s = Some data :: q -> exited s = false ->
      stdin_broken (process s) = false ->
      exists s', input_writer_iter s = (Continue, s')
                 /\ input_queue s' = q
                 /\ stdin_pipe (process s')
                    = stdin_pipe (process s) ++ stdin_buffer (process s)
                      ++ [data +:+ Text.newline]
                 /\ stdin_buffer (process s') = [])
  /\ (forall s q,
      input_queue s = None :: q ->
      exists s', input_writer_iter s = (Break, s')
                 /\ input_queue s' = q /\ process s' = process s)
  /\ (forall s,
      stdin_closed (process s) = false ->
      (input_writer_iter s).1 = Break ->
      stdin_closed (process (act InputWriterTurn s)) = true).
Proof.
  split; [|split; [|split]].
  - intros s data q Hq Hex. unfold input_writer_iter. rewrite Hq.
    change (exited (with_input_queue q s)) with (exited s). rewrite Hex.
    by eexists.
  - intros s data q Hq Hex Hok. unfold input_writer_iter. rewrite Hq.
    change (exited (with_input_queue q s)) with (exited s). rewrite Hex.
    change (process (with_input_queue q s)) with (process s). rewrite Hok.
    eexists. by repeat split.
  - intros s q Hq. unfold input_writer_iter. rewrite Hq. by eexists.
  - intros s Hopen Hbreak. simpl. rewrite Hopen.
    destruct (input_writer_iter s) as [[] s']; [done|]. reflexivity.
Qed.

Lemma input_writer_dequeue_witness :
  (exists s', input_writer_iter
                (mkSession "s" (set_returncode 0%Z new_process) [Some "25"] [] []
                   false false "" "") = (Continue, s')
              /\ stdin_pipe (process s') = [])
  /\ (exists s', input_writer_iter
                (mkSession "s" new_process [Some "25"] [] [] false false "" "")
              = (Continue, s')
              /\ stdin_pipe (process s') = ["25" +:+ Text.newline]
              /\ stdin_buffer (process s') = [])
  /\ stdin_closed
       (process (act InputWriterTurn
                   (mkSession "s" new_process [None; Some "25"] [] [] false false "" "")))
     = true.
Proof.
  destruct input_writer_dequeue as (Hdrop & Hwrite & Hpill & Hclose).
  split; [|split].
  - destruct (Hdrop (mkSession "s" (set_returncode 0%Z new_process) [Some "25"] [] []
                       false false "" "") "25" []) as (s' & E & _ & Hp);
      [reflexivity..|].
    exists s'. split; [exact E|]. by rewrite Hp.
  - destruct (Hwrite (mkSession "s" new_process [Some "25"] [] [] false false "" "")
                "25" []) as (s' & E & _ & Hp & Hb); [reflexivity..|].
    exists s'. by repeat split.
  - apply Hclose; [reflexivity|].
    destruct (Hpill (mkSession "s" new_process [None; Some "25"] [] [] false false "" "")
                [Some "25"]) as (s' & E & _); [reflexivity|].
    by rewrite E.
Defined.

(** ** Worker activity and the output queue *)

Lemma core_with_output_queue q s : core (with_output_queue q s) = core s.
Proof. reflexivity. Qed.

Lemma core_waiting s : is_waiting_for_input (core s) = is_waiting_for_input s.
Proof. reflexivity. Qed.

Lemma core_exited s : exited (core s) = exited s.
Proof. reflexivity. Qed.

(** The workers never read the output queue: they only append to it. *)
Lemma act_core a s : core (act a s) = core (act a (core s)).
Proof.
  destruct s as [id [rc buf pipe cl br ocl ecl sg] inq outq tf wf cf fo eo].
  destruct a as [[line|e]|[line|e]| |rc'|]; simpl.
  - destruct ocl; [done|]. unfold output_reader_iter, exited; simpl.
    destruct (bool_decide (line = "")); simpl.
    + by destruct rc.
    + by destruct (any_keyword_in (Text.lower line)).
  - by destruct ocl.
  - destruct ecl; [done|]. unfold error_reader_iter, exited; simpl.
    destruct (bool_decide (line = "")); simpl; [by destruct rc|done].
  - by destruct ecl.
  - destruct cl; [done|]. unfold input_writer_iter, exited; simpl.
    destruct inq as [|[data|] inq]; simpl.
    + by destruct rc.
    + destruct rc; [done|]. by destruct br.
    + done.
  - by destruct rc.
  - done.
Qed.

Lemma acts_cons a evs s : acts (a :: evs) s = acts evs (act a s).
Proof. reflexivity. Qed.

Lemma acts_app evs1 evs2 s : acts (evs1 ++ evs2) s = acts evs2 (acts evs1 s).
Proof. apply foldl_app. Qed.

Lemma acts_core evs s : core (acts evs s) = core (acts evs (core s)).
Proof.
  revert s. induction evs as [|a evs IH]; intros s; [done|].
  rewrite !acts_cons, IH, act_core, <- IH. reflexivity.
Qed.

Lemma act_exited_mono a s : exited s = true -> exited (act a s) = true.
Proof.
  destruct s as [id [rc buf pipe cl br ocl ecl sg] inq outq tf wf cf fo eo].
  unfold exited; simpl. destruct rc as [rc|]; [intros _|done].
  destruct a as [[line|e]|[line|e]| |rc'|]; simpl; try done.
  - destruct ocl; [done|]. unfold output_reader_iter, exited; simpl.
    destruct (bool_decide (line = "")); simpl; [done|].
    by destruct (any_keyword_in (Text.lower line)).
  - by destruct ocl.
  - destruct ecl; [done|]. unfold error_reader_iter, exited; simpl.
    by destruct (bool_decide (line = "")).
  - by destruct ecl.
  - destruct cl; [done|]. unfold input_writer_iter, exited; simpl.
    by destruct inq as [|[data|] inq].
Qed.

Lemma acts_exited_mono evs s : exited s = true -> exited (acts evs s) = true.
Proof.
  revert s. induction evs as [|a evs IH]; intros s H; [done|].
  rewrite acts_cons. by apply IH, act_exited_mono.
Qed.

Lemma drain_queue_spec q outs errs :
  drain_queue q outs errs = (outs ++ lines_of output q, errs ++ lines_of error q).
Proof.
  revert outs errs. induction q as [|[[] msg] q IH]; intros outs errs; simpl.
  - by rewrite !app_nil_r.
  - rewrite IH. unfold lines_of; simpl. by rewrite <- app_assoc.
  - rewrite IH. unfold lines_of; simpl. by rewrite <- app_assoc.
Qed.

(** When the process is still running after the bounded loop, no iteration
    was cut short, and the workers' state is what the schedule alone makes
    of it. *)
Lemma drain_window_core ticks s outs errs :
  exited (drain_window ticks s outs errs).1.1 = false ->
  core (drain_window ticks s outs errs).1.1 = core (acts (concat ticks) s).
Proof.
  revert s outs errs. induction ticks as [|evs ticks IH]; intros s outs errs; [done|].
  simpl. rewrite acts_app.
  destruct (output_queue (acts evs s)) as [|[[] msg] q] eqn:Hq.
  - destruct (exited (acts evs s)) eqn:Hex; simpl.
    + by rewrite Hex.
    + apply IH.
  - intros H. rewrite (IH _ _ _ H), acts_core, core_with_output_queue, <- acts_core.
    reflexivity.
  - intros H. rewrite (IH _ _ _ H), acts_core, core_with_output_queue, <- acts_core.
    reflexivity.
Qed.

Lemma sample_core win s :
  exited (sample win s).1.1 = false ->
  core (sample win s).1.1 = core (acts (all_actions win) s).
Proof.
  unfold sample, all_actions.
  destruct (drain_window (polling win) (acts (asleep win) s) [] [])
    as [[s1 outs] errs] eqn:Hd. simpl. intros Hex.
  assert (exited s1 = false) as Hex1.
  { destruct (exited s1) eqn:E; [|done]. by rewrite acts_exited_mono in Hex. }
  pose proof (drain_window_core (polling win) (acts (asleep win) s) [] []) as Hc.
  rewrite Hd in Hc. simpl in Hc. specialize (Hc Hex1).
  rewrite !acts_app, acts_core, Hc, <- acts_core. reflexivity.
Qed.

Lemma exited_acts_core evs s : exited (acts evs (core s)) = exited (acts evs s).
Proof. by rewrite <- (core_exited (acts evs (core s))), <- acts_core. Qed.

Lemma waiting_acts_core evs s :
  is_waiting_for_input (acts evs (core s)) = is_waiting_for_input (acts evs s).
Proof. by rewrite <- (core_waiting (acts evs (core s))), <- acts_core. Qed.

Lemma input_queue_acts_core evs s :
  input_queue (acts evs (core s)) = input_queue (acts evs s).
Proof.
  change (input_queue (core (acts evs (core s))) = input_queue (acts evs s)).
  by rewrite <- acts_core.
Qed.

(** ** /input on a process that has exited (C10, C2) *)

(** C10: when the process of a registered session has already exited,
    [provide_input] answers COMPLETED with empty output and the error text
    "Process has already terminated", whatever the output queue holds; the
    queued lines stay in the abandoned object, and the id is unknown to
    every later input, status or terminate request, so no request returns
    them. *)
Theorem provide_input_after_exit IS_WINDOWS win data w r s :
  execution_sessions w !! default "" (req_session_id data) = Some r ->
  objects w !! r = Some s ->
  exited s = true ->
  let id := default "" (req_session_id data) in
  let w' := (provide_input IS_WINDOWS win data w).2 in
  (provide_input IS_WINDOWS win data w).1
  = (Completed "" "Process has already terminated", 200)
  /\ objects w' !! r = Some s
  /\ execution_sessions w' !! id = None
  /\ (forall win' text,
        (provide_input IS_WINDOWS win' {| req_session_id := Some id; req_input := text |} w').1
        = invalid_session)
  /\ (forall settle, (check_status IS_WINDOWS settle id w').1 = invalid_session)
  /\ (forall waiting, (terminate_session IS_WINDOWS waiting id w').1 = invalid_session).
Proof.
  intros Hreg Hobj Hex. cbv zeta.
  assert (provide_input IS_WINDOWS win data w
          = ((Completed "" "Process has already terminated", 200),
             forget IS_WINDOWS (default "" (req_session_id data)) r s w)) as ->.
  { unfold provide_input. by rewrite Hreg, Hobj, Hex. }
  cbn [fst snd]. set (id := default "" (req_session_id data)) in *.
  assert (execution_sessions (forget IS_WINDOWS id r s w) !! id = None) as Hgone
    by apply lookup_delete_eq.
  split; [done|]. split; [apply lookup_insert_eq|]. split; [done|].
  split; [|split].
  - intros win' text. unfold provide_input.
    change (default "" (req_session_id {| req_session_id := Some id; req_input := text |}))
      with id.
    by rewrite Hgone.
  - intros settle. unfold check_status. by rewrite Hgone.
  - intros waiting. unfold terminate_session. by rewrite Hgone.
Qed.

Lemma provide_input_after_exit_witness :
  (provide_input false Sample.quiet (Sample.to_abc "7") Sample.world_done).1
  = (Completed "" "Process has already terminated", 200)
  /\ output_queue
       <$> objects (provide_input false Sample.quiet (Sample.to_abc "7") Sample.world_done).2
           !! 0
     = Some [(output, "42")].
Proof.
  destruct (provide_input_after_exit false Sample.quiet (Sample.to_abc "7")
              Sample.world_done 0 Sample.done_) as (Hresp & Hobj & _);
    [reflexivity..|].
  split; [exact Hresp|]. by rewrite Hobj.
Defined.

(** [provide_input], on finding the process gone, leaves the session
    object exactly as it was. *)
Lemma provide_input_exit_object IS_WINDOWS win data w r s :
  execution_sessions w !! default "" (req_session_id data) = Some r ->
  objects w !! r = Some s ->
  exited s = true ->
  objects (provide_input IS_WINDOWS win data w).2 !! r = Some s.
Proof.
  intros Hreg Hobj Hex. unfold provide_input. rewrite Hreg, Hobj, Hex. simpl.
  apply lookup_insert_eq.
Qed.

(** The reaper never touches a session object: it has no way to reach an
    input queue. *)
Lemma cleanup_old_sessions_objects IS_WINDOWS w :
  objects (cleanup_old_sessions IS_WINDOWS w) = objects w.
Proof.
  unfold cleanup_old_sessions. generalize (sessions_to_remove w) as ids.
  intros ids. revert w. induction ids as [|id ids IH]; intros w0; [done|].
  simpl. rewrite IH. unfold reap. by destruct (lookup_session w0 id) as [[r s]|].
Qed.

(** C2: evaluated on a registered session whose process has exited, both
    [provide_input] and the reaper release the scratch files and remove the
    id but leave the input queue without the pill, whereas [check_status]
    on the same world performs all three steps. *)
Theorem finalization_without_pill :
  let by_input := (provide_input false Sample.quiet (Sample.to_abc "7") Sample.world_done).2 in
  let by_reaper := cleanup_old_sessions false Sample.world_done in
  let by_status := (check_status false [] "abc" Sample.world_done).2 in
  (input_queue <$> objects by_input !! 0 = Some []
   /\ execution_sessions by_input !! "abc" = None
   /\ map_to_list (files by_input) = [("/tmp/keep", false)])
  /\ (input_queue <$> objects by_reaper !! 0 = Some []
   /\ execution_sessions by_reaper !! "abc" = None
   /\ map_to_list (files by_reaper) = [("/tmp/keep", false)])
  /\ (input_queue <$> objects by_status !! 0 = Some [None]
   /\ execution_sessions by_status !! "abc" = None
   /\ map_to_list (files by_status) = [("/tmp/keep", false)]).
Proof. vm_compute. repeat split. Qed.

(** ** /input on a running process (C4) *)

(** C4, amended: when [provide_input] answers RUNNING, the flag it reports
    and stores is recomputed from the stdout lines captured in its window:
    the heuristic on the last of them, empty or not, and false when there
    is none; what the flag was before plays no part. *)
Theorem provide_input_recomputes IS_WINDOWS win data w r s sid out err wfi code w' :
  execution_sessions w !! default "" (req_session_id data) = Some r ->
  objects w !! r = Some s ->
  provide_input IS_WINDOWS win data w = ((Running sid out err wfi, code), w') ->
  exists session output_lines error_lines,
    sample win (with_waiting false (inq_put (Some (default "" (req_input data))) s))
    = (session, output_lines, error_lines)
    /\ out = Text.join Text.newline output_lines
    /\ err = Text.join Text.newline error_lines
    /\ wfi = waiting_by_last output_lines
    /\ exists s', lookup_session w' (default "" (req_session_id data)) = Some (r, s')
                  /\ is_waiting_for_input s' = wfi.
Proof.
  intros Hreg Hobj. unfold provide_input. rewrite Hreg, Hobj.
  destruct (exited s); [done|].
  destruct (sample win _) as [[session output_lines] error_lines].
  destruct (exited session).
  { by destruct (drain_now _ _ _) as [[? ?] ?]. }
  intros H. exists session, output_lines, error_lines. split; [done|].
  unfold waiting_by_last.
  destruct (last output_lines) as [line|];
    [destruct (any_keyword_in (Text.lower line))|];
    simplify_eq; (repeat split; try done);
    eexists; unfold lookup_session; simpl; rewrite Hreg, lookup_insert_eq; done.
Qed.

Lemma provide_input_recomputes_witness :
  exists session output_lines error_lines,
    sample Sample.prompt_then_blank
      (with_waiting false (inq_put (Some "Ann") Sample.running))
    = (session, output_lines, error_lines)
    /\ ("Enter name:" +:+ Text.newline) = Text.join Text.newline output_lines
    /\ "" = Text.join Text.newline error_lines
    /\ false = waiting_by_last output_lines
    /\ exists s', lookup_session
                    (provide_input false Sample.prompt_then_blank (Sample.to_abc "Ann")
                       Sample.world_running).2 "abc" = Some (0, s')
                  /\ is_waiting_for_input s' = false.
Proof.
  apply (provide_input_recomputes false Sample.prompt_then_blank (Sample.to_abc "Ann")
           Sample.world_running 0 Sample.running None _ _ _ 200);
    [reflexivity | reflexivity |].
  apply injective_projections; [vm_compute; reflexivity | reflexivity].
Defined.

(** C4 as stated fails: the program prints "Enter name:" and then a blank
    line; the last captured line that is not empty contains ":", yet the
    handler looks at the blank line and reports that no input is awaited. *)
Lemma provide_input_last_nonempty_counterexample :
  ~ (forall IS_WINDOWS win data w r s sid out err wfi code w',
        execution_sessions w !! default "" (req_session_id data) = Some r ->
        objects w !! r = Some s ->
        provide_input IS_WINDOWS win data w = ((Running sid out err wfi, code), w') ->
        wfi = waiting_by_last_nonempty
                (sample win
                   (with_waiting false (inq_put (Some (default "" (req_input data))) s))).1.2).
Proof.
  intros H.
  specialize (H false Sample.prompt_then_blank (Sample.to_abc "Ann")
                Sample.world_running 0 Sample.running None
                ("Enter name:" +:+ Text.newline) "" false 200
                (provide_input false Sample.prompt_then_blank (Sample.to_abc "Ann")
                   Sample.world_running).2 eq_refl eq_refl).
  assert (false = true) as Habs; [|discriminate Habs].
  etrans; [apply H|vm_compute; reflexivity].
  apply injective_projections; [vm_compute; reflexivity | reflexivity].
Qed.

(** ** /execute: the waiting estimate (C3) *)

Lemma act_waiting_mono a s :
  is_waiting_for_input s = true -> is_waiting_for_input (act a s) = true.
Proof.
  destruct s as [id [rc buf pipe cl br ocl ecl sg] inq outq tf wf cf fo eo].
  simpl. intros ->.
  destruct a as [[line|e]|[line|e]| |rc'|]; simpl; try done.
  - destruct ocl; [done|]. unfold output_reader_iter, exited; simpl.
    destruct (bool_decide (line = "")); simpl; [by destruct rc|].
    by destruct (any_keyword_in (Text.lower line)).
  - by destruct ocl.
  - destruct ecl; [done|]. unfold error_reader_iter, exited; simpl.
    destruct (bool_decide (line = "")); simpl; [by destruct rc|done].
  - by destruct ecl.
  - destruct cl; [done|]. unfold input_writer_iter, exited; simpl.
    destruct inq as [|[data|] inq]; simpl; [by destruct rc| |done].
    destruct rc; [done|]. by destruct br.
  - by destruct rc.
Qed.

Lemma acts_waiting_mono evs s :
  is_waiting_for_input s = true -> is_waiting_for_input (acts evs s) = true.
Proof.
  revert s. induction evs as [|a evs IH]; intros s H; [done|].
  rewrite acts_cons. by apply IH, act_waiting_mono.
Qed.

(** A matching line read while the stdout reader runs raises the flag. *)
Lemma act_fires line s :
  stdout_closed (process s) = false ->
  any_keyword_in (Text.lower line) = true ->
  is_waiting_for_input (act (StdoutRead (ReadLine line)) s) = true.
Proof.
  intros Hopen Hkw. simpl. rewrite Hopen.
  pose proof (output_reader_iter_waiting line s) as Hw.
  rewrite Hkw, orb_true_r in Hw.
  by destruct (output_reader_iter line s) as [[] s'].
Qed.

(** The stdout reader ends only on a read fault or after the process has
    exited. *)
Lemma act_stdout_open a s :
  stdout_closed (process s) = false ->
  (forall e, a <> StdoutRead (ReadFault e)) ->
  exited (act a s) = false ->
  stdout_closed (process (act a s)) = false.
Proof.
  destruct s as [id [rc buf pipe cl br ocl ecl sg] inq outq tf wf cf fo eo].
  simpl. intros -> Hnf.
  destruct a as [[line|e]|[line|e]| |rc'|]; simpl; try done.
  - unfold output_reader_iter, exited; simpl.
    destruct (bool_decide (line = "")); simpl; [by destruct rc|].
    by destruct (any_keyword_in (Text.lower line)).
  - by destruct (Hnf e).
  - destruct ecl; [done|]. unfold error_reader_iter, exited; simpl.
    destruct (bool_decide (line = "")); simpl; [by destruct rc|done].
  - by destruct ecl.
  - destruct cl; [done|]. unfold input_writer_iter, exited; simpl.
    destruct inq as [|[data|] inq]; simpl; [by destruct rc| |done].
    destruct rc; [done|]. by destruct br.
  - by destruct rc.
Qed.

Lemma acts_not_exited_prefix evs1 evs2 s :
  exited (acts (evs1 ++ evs2) s) = false -> exited (acts evs1 s) = false.
Proof.
  rewrite acts_app. intros H. destruct (exited (acts evs1 s)) eqn:E; [|done].
  by rewrite acts_exited_mono in H.
Qed.

Lemma acts_stdout_open evs s :
  stdout_closed (process s) = false ->
  (forall e, StdoutRead (ReadFault e) ∉ evs) ->
  exited (acts evs s) = false ->
  stdout_closed (process (acts evs s)) = false.
Proof.
  revert s. induction evs as [|a evs IH]; intros s Hopen Hnf Hex; [done|].
  rewrite acts_cons in *. apply IH.
  - apply act_stdout_open; [done| |].
    + intros e ->. apply (Hnf e). left.
    + apply (acts_not_exited_prefix [a] evs s). by rewrite <- acts_cons in Hex.
  - intros e He. apply (Hnf e). by right.
  - done.
Qed.

(** If the process still runs at the end of a schedule in which the stdout
    reader, before any read fault, read a line with a keyword, the flag is
    up at the end. *)
Lemma acts_fired evs1 line evs2 s :
  stdout_closed (process s) = false ->
  (forall e, StdoutRead (ReadFault e) ∉ evs1) ->
  any_keyword_in (Text.lower line) = true ->
  exited (acts (evs1 ++ StdoutRead (ReadLine line) :: evs2) s) = false ->
  is_waiting_for_input (acts (evs1 ++ StdoutRead (ReadLine line) :: evs2) s) = true.
Proof.
  intros Hopen Hnf Hkw Hex. rewrite acts_app, acts_cons.
  apply acts_waiting_mono, act_fires; [|done].
  apply acts_stdout_open; [done..|].
  by apply (acts_not_exited_prefix _ (StdoutRead (ReadLine line) :: evs2)).
Qed.

Lemma compile_step_return IS_WINDOWS h language temp_dir code_file r :
  (compile_step IS_WINDOWS h language temp_dir code_file).1 = CompileReturn r ->
  exists e d, r = (Error e d, 400).
Proof.
  unfold compile_step, check_returncode, compiler_not_found.
  repeat case_match; simpl; intros; simplify_eq; eauto.
Qed.

(** The shape of a RUNNING answer of [execute_code]. *)
Lemma execute_code_running IS_WINDOWS h win data w sid out err wfi code w' :
  execute_code IS_WINDOWS h win data w = ((Running sid out err wfi, code), w') ->
  exists temp_files session initial_output initial_errors,
    sample win (new_session (uuid4 h) temp_files)
    = (session, initial_output, initial_errors)
    /\ exited session = false
    /\ sid = Some (uuid4 h)
    /\ out = Text.join Text.newline initial_output
    /\ err = Text.join Text.newline initial_errors
    /\ wfi = is_waiting_for_input session
             || (bool_decide (initial_output = []) && bool_decide (initial_errors = [])).
Proof.
  unfold execute_code.
  destruct (negb _); [done|].
  destruct (compile_step _ _ _ _ _).1 as [exe|r|e] eqn:Hc.
  - destruct (Popen_start h _); [done|].
    destruct (sample win _) as [[session io] ie] eqn:Hs.
    destruct (exited session) eqn:Hex; [done|].
    intros H. simplify_eq. eexists _, session, io, ie. by rewrite Hs.
  - apply compile_step_return in Hc as (e & d & ->). done.
  - done.
Qed.

(** C3: when [execute_code] answers RUNNING, the reported
    waiting_for_input is true if the stdout reader, during the warm-up
    window, read a line containing a keyword, and it is true as well
    whenever the window captured no stdout line and no stderr line. *)
Theorem execute_code_waiting IS_WINDOWS h win data w sid out err wfi code w' :
  execute_code IS_WINDOWS h win data w = ((Running sid out err wfi, code), w') ->
  exists temp_files session initial_output initial_errors,
    sample win (new_session (uuid4 h) temp_files)
    = (session, initial_output, initial_errors)
    /\ out = Text.join Text.newline initial_output
    /\ err = Text.join Text.newline initial_errors
    /\ ((exists evs1 line evs2,
            all_actions win = evs1 ++ StdoutRead (ReadLine line) :: evs2
            /\ (forall e, StdoutRead (ReadFault e) ∉ evs1)
            /\ contains_keyword (Text.lower line)) ->
        wfi = true)
    /\ (initial_output = [] -> initial_errors = [] -> wfi = true).
Proof.
  intros H.
  apply execute_code_running in H
    as (tf & session & io & ie & Hs & Hex & _ & -> & -> & ->).
  exists tf, session, io, ie. repeat split; [done| |].
  - intros (evs1 & line & evs2 & Hall & Hnf & Hkw%any_keyword_in_spec).
    apply orb_true_iff. left.
    pose proof (sample_core win (new_session (uuid4 h) tf)) as Hcore.
    rewrite Hs in Hcore. simpl in Hcore. specialize (Hcore Hex).
    rewrite <- core_waiting, Hcore, core_waiting, Hall.
    apply acts_fired; [done..|].
    rewrite <- Hall, <- core_exited, <- Hcore. by rewrite core_exited.
  - intros -> ->. apply orb_true_r.
Qed.

Lemma execute_code_waiting_witness :
  exists temp_files session initial_output initial_errors,
    sample Sample.quiet (new_session "u1" temp_files)
    = (session, initial_output, initial_errors)
    /\ "" = Text.join Text.newline initial_output
    /\ "" = Text.join Text.newline initial_errors
    /\ ((exists evs1 line evs2,
            all_actions Sample.quiet = evs1 ++ StdoutRead (ReadLine line) :: evs2
            /\ (forall e, StdoutRead (ReadFault e) ∉ evs1)
            /\ contains_keyword (Text.lower line)) ->
        true = true)
    /\ (initial_output = [] -> initial_errors = [] -> true = true).
Proof.
  apply (execute_code_waiting false (Sample.host (fun _ _ => RunFileNotFound) None)
           Sample.quiet Sample.python_program Sample.world_empty (Some "u1") "" "" true 200
           (execute_code false (Sample.host (fun _ _ => RunFileNotFound) None)
              Sample.quiet Sample.python_program Sample.world_empty).2).
  apply injective_projections; [vm_compute; reflexivity | reflexivity].
Defined.

(** ** Scratch files *)

Lemma str_app_assoc (a b c : string) : (a +:+ b) +:+ c = a +:+ b +:+ c.
Proof. induction a as [|x a IH]; [done|]. by rewrite !app_cons, IH. Qed.

Lemma str_app_cons_ne d c x : d +:+ String c x <> d.
Proof.
  assert (forall s t, String.length (s +:+ t) = String.length s + String.length t) as Hlen.
  { intros s t. induction s as [|y s IH]; [done|]. rewrite app_cons. simpl. by rewrite IH. }
  intros H. apply (f_equal String.length) in H. rewrite Hlen in H. simpl in H. lia.
Qed.

Section ScratchFacts.
Variable IS_WINDOWS : bool.

Lemma under_path_join d f : under IS_WINDOWS d (path_join IS_WINDOWS d f) = true.
Proof.
  unfold under, path_join. rewrite <- str_app_assoc. apply startswith_app.
Qed.

Lemma under_ne d p : under IS_WINDOWS d p = true -> p <> d.
Proof.
  unfold under. intros [post H]%startswith_spec ->.
  rewrite str_app_assoc in H. symmetry in H. revert H.
  unfold sep. destruct IS_WINDOWS; apply str_app_cons_ne.
Qed.

Lemma rmtree_lookup d fs p :
  rmtree IS_WINDOWS d fs !! p
  = if decide (p = d) then None
    else if under IS_WINDOWS d p then None else fs !! p.
Proof.
  unfold rmtree. rewrite map_lookup_filter, lookup_delete. simpl.
  destruct (decide (d = p)) as [->|Hne].
  - by rewrite decide_True.
  - rewrite decide_False by done.
    destruct (fs !! p) as [b|]; simpl; destruct (under IS_WINDOWS d p); simpl;
      try done; by case_guard.
Qed.

Lemma cleanup_absent rest fs :
  Forall (fun p => fs !! p = None) rest ->
  cleanup_temp_files IS_WINDOWS rest fs = fs.
Proof.
  induction 1 as [|p rest Hp _ IH]; [done|].
  unfold cleanup_temp_files in *. simpl. unfold cleanup_one at 2. by rewrite Hp.
Qed.

(** A list that starts with an existing directory and goes on with paths
    below it: the first step removes the tree, the others find nothing. *)
Lemma cleanup_tree d rest fs :
  fs !! d = Some true ->
  Forall (fun p => under IS_WINDOWS d p = true) rest ->
  cleanup_temp_files IS_WINDOWS (d :: rest) fs = rmtree IS_WINDOWS d fs.
Proof.
  intros Hd Hrest. unfold cleanup_temp_files. simpl. unfold cleanup_one at 2.
  rewrite Hd. apply cleanup_absent.
  eapply Forall_impl; [exact Hrest|]. intros p Hp. simpl in Hp.
  rewrite rmtree_lookup, Hp. by case_decide.
Qed.

End ScratchFacts.

Section FailureFacts.
Variable IS_WINDOWS : bool.

Lemma lookup_new_files (names : list string) (fs : gmap string bool) p :
  p ∉ names -> foldl (fun fs n => <[n := false]> fs) fs names !! p = fs !! p.
Proof.
  revert fs. induction names as [|n names IH]; intros fs Hp; [done|].
  simpl. rewrite IH by set_solver. apply lookup_insert_ne. set_solver.
Qed.

(** Cleaning up a scratch directory and the files created in it removes
    the directory with all that lies below it, and nothing else. *)
Lemma released_files d names fs p :
  Forall (fun n => under IS_WINDOWS d n = true) names ->
  cleanup_temp_files IS_WINDOWS (d :: names) (with_scratch d names fs) !! p
  = if decide (p = d) then None
    else if under IS_WINDOWS d p then None else fs !! p.
Proof.
  intros Hnames. unfold with_scratch.
  assert (d ∉ names) as Hd.
  { intros Hin. rewrite Forall_forall in Hnames.
    by apply (under_ne IS_WINDOWS d d); [apply Hnames|]. }
  rewrite cleanup_tree; [|by rewrite lookup_new_files, lookup_insert_eq|done].
  rewrite rmtree_lookup. case_decide as Hpd; [done|].
  destruct (under IS_WINDOWS d p) eqn:Hu; [done|].
  rewrite lookup_new_files, lookup_insert_ne; [done..|].
  intros Hin. rewrite Forall_forall in Hnames. by rewrite (Hnames _ Hin) in Hu.
Qed.

Lemma compile_step_compiled h language temp_dir code_file exe :
  (compile_step IS_WINDOWS h language temp_dir code_file).1 = Compiled (Some exe) ->
  exe = path_join IS_WINDOWS temp_dir ("program" +:+ get_executable_extension IS_WINDOWS).
Proof.
  unfold compile_step, check_returncode.
  repeat case_match; simpl; intros; by simplify_eq.
Qed.

End FailureFacts.

(** ** /execute: failures (C8) *)

(** C8: when [execute_code] answers with an error (unsupported language,
    compiler not found, compilation error, or an exception of the compile
    step or of the launch), the registry and the session objects are as
    before.  For an unsupported language nothing was allocated and the files
    are as before; otherwise the scratch directory and every path below it
    are gone, and every other path is as before. *)
Theorem execute_code_failure IS_WINDOWS h win data w e d code w' :
  execute_code IS_WINDOWS h win data w = ((Error e d, code), w') ->
  execution_sessions w' = execution_sessions w
  /\ objects w' = objects w
  /\ if supported data
     then forall p,
         files w' !! p
         = if decide (p = mkdtemp h) then None
           else if under IS_WINDOWS (mkdtemp h) p then None else files w !! p
     else files w' = files w.
Proof.
  unfold execute_code, supported.
  destruct (bool_decide _); simpl; [|by intros; simplify_eq].
  set (language := Text.lower (default "python" (req_language data))).
  set (code_file := path_join IS_WINDOWS (mkdtemp h) ("code" +:+ get_file_extension language)).
  assert (under IS_WINDOWS (mkdtemp h) code_file = true) as Hcode
    by apply under_path_join.
  destruct (compile_step _ _ _ _ _).1 as [exe|r|e'] eqn:Hc.
  - destruct (Popen_start h _).
    + intros H; simplify_eq; simpl. repeat split. intros p.
      destruct exe as [exe|].
      * apply compile_step_compiled in Hc as ->.
        apply (released_files IS_WINDOWS (mkdtemp h) [code_file; _]).
        repeat constructor; [done|apply under_path_join].
      * apply (released_files IS_WINDOWS (mkdtemp h) [code_file]).
        by repeat constructor.
    + destruct (sample win _) as [[session io] ie].
      by destruct (exited session).
  - intros H; simplify_eq; simpl. repeat split. intros p.
    apply (released_files IS_WINDOWS (mkdtemp h) [code_file]). by repeat constructor.
  - intros H; simplify_eq; simpl. repeat split. intros p.
    apply (released_files IS_WINDOWS (mkdtemp h) [code_file]). by repeat constructor.
Qed.

Lemma execute_code_failure_witness :
  let w' := (execute_code false (Sample.host (fun _ _ => RunFileNotFound) None)
               Sample.quiet Sample.c_program Sample.world_running).2 in
  execution_sessions w' = execution_sessions Sample.world_running
  /\ objects w' = objects Sample.world_running
  /\ files w' !! "/tmp/z" = None
  /\ files w' !! "/tmp/z/code.c" = None
  /\ files w' !! "/tmp/keep" = Some false.
Proof.
  intros w'.
  destruct (execute_code_failure false (Sample.host (fun _ _ => RunFileNotFound) None)
              Sample.quiet Sample.c_program Sample.world_running
              "Compiler not found"
              (Some "Please install a C/C++ compiler (gcc/g++ or clang/clang++)") 400 w')
    as (Hreg & Hobj & Hfiles).
  { apply injective_projections; [vm_compute; reflexivity | reflexivity]. }
  assert (supported Sample.c_program = true) as Hs by reflexivity.
  rewrite Hs in Hfiles.
  split; [exact Hreg|]. split; [exact Hobj|].
  split; [|split].
  - rewrite (Hfiles "/tmp/z"). vm_compute. reflexivity.
  - rewrite (Hfiles "/tmp/z/code.c"). vm_compute. reflexivity.
  - rewrite (Hfiles "/tmp/keep"). vm_compute. reflexivity.
Defined.

(** ** /execute: the compile step (C5) *)

Lemma execute_code_compiler_not_found IS_WINDOWS h win data w :
  supported data = true ->
  (execute_code IS_WINDOWS h win data w).1 = compiler_not_found
  <-> (compile_step IS_WINDOWS h (Text.lower (default "python" (req_language data)))
         (mkdtemp h)
         (path_join IS_WINDOWS (mkdtemp h)
            ("code" +:+ get_file_extension
                          (Text.lower (default "python" (req_language data)))))).1
      = CompileReturn compiler_not_found.
Proof.
  unfold supported, execute_code. intros ->. simpl.
  destruct (compile_step _ _ _ _ _).1 as [exe|r|e]; simpl.
  - destruct (Popen_start h _); simpl; [done|].
    destruct (sample win _) as [[session io] ie].
    by destruct (exited session).
  - split; [by intros ->|by intros [= ->]].
  - done.
Qed.

(** C5, amended: for c and cpp, when the first run of the compiler raises
    [FileNotFoundError] the compile step runs exactly one more command, and
    the request fails with "Compiler not found" exactly when that second
    run raises it too; when the first run finds the compiler there is no
    second run and no such failure.  On Windows the second command names
    clang (clang++ for cpp), a compiler other than the first; elsewhere the
    second command is the first one again. *)
Theorem compile_retry IS_WINDOWS h win data w :
  let language := Text.lower (default "python" (req_language data)) in
  language ∈ ["c"; "cpp"] ->
  let code_file :=
    path_join IS_WINDOWS (mkdtemp h) ("code" +:+ get_file_extension language) in
  let exe :=
    path_join IS_WINDOWS (mkdtemp h) ("program" +:+ get_executable_extension IS_WINDOWS) in
  let primary := get_compile_command IS_WINDOWS code_file language exe in
  let retry := retry_command IS_WINDOWS language code_file exe primary in
  let runs := (compile_step IS_WINDOWS h language (mkdtemp h) code_file).2 in
  let resp := (execute_code IS_WINDOWS h win data w).1 in
  (subprocess_run h 0 primary = RunFileNotFound ->
     runs = [primary; retry]
     /\ (resp = compiler_not_found <-> subprocess_run h 1 retry = RunFileNotFound))
  /\ (subprocess_run h 0 primary <> RunFileNotFound ->
     runs = [primary] /\ resp <> compiler_not_found)
  /\ (if IS_WINDOWS
      then compiler_of retry = Some (if decide (language = "c") then "clang" else "clang++")
           /\ compiler_of retry <> compiler_of primary
      else retry = primary).
Proof.
  intros language Hlang code_file exe primary retry runs resp.
  assert (supported data = true) as Hsup.
  { unfold supported. apply bool_decide_eq_true_2. fold language.
    by apply list_elem_of_further. }
  assert (bool_decide (language ∈ ["c"; "cpp"]) = true) as Hcc
    by by apply bool_decide_eq_true_2.
  subst resp. rewrite (execute_code_compiler_not_found _ _ _ _ _ Hsup).
  fold language code_file. subst runs.
  unfold compile_step. rewrite Hcc. fold exe primary retry.
  split; [|split].
  - intros ->. split; [done|]. simpl.
    destruct (subprocess_run h 1 retry) as [|e|rc stderr]; [done|done|].
    unfold check_returncode, compiler_not_found.
    destruct (bool_decide (rc ≠ 0%Z)); split; intros H'; discriminate H'.
  - intros Hfound. destruct (subprocess_run h 0 primary) as [|e|rc stderr]; [done|done|].
    split; [done|]. simpl. unfold check_returncode, compiler_not_found.
    destruct (bool_decide (rc ≠ 0%Z)); intros H'; discriminate H'.
  - subst retry primary. clearbody language.
    unfold retry_command, get_compile_command.
    apply elem_of_cons in Hlang as [->|Hlang]; [by destruct IS_WINDOWS|].
    apply list_elem_of_singleton in Hlang as ->. by destruct IS_WINDOWS.
Qed.

Lemma compile_retry_witness :
  (compile_step false (Sample.host (fun _ _ => RunFileNotFound) None) "c" "/tmp/z"
     "/tmp/z/code.c").2
  = [Some ["clang"; "/tmp/z/code.c"; "-o"; "/tmp/z/program.out"];
     Some ["clang"; "/tmp/z/code.c"; "-o"; "/tmp/z/program.out"]]
  /\ (execute_code false (Sample.host (fun _ _ => RunFileNotFound) None)
        Sample.quiet Sample.c_program Sample.world_empty).1 = compiler_not_found.
Proof.
  destruct (compile_retry false (Sample.host (fun _ _ => RunFileNotFound) None)
              Sample.quiet Sample.c_program Sample.world_empty) as ((Hruns & Hresp) & _).
  - vm_compute. set_solver.
  - reflexivity.
  - split; [exact Hruns|]. by apply Hresp.
Defined.

(** C5 as stated fails: off Windows the command of the retry for c is the
    clang command that was just not found, not another compiler. *)
Lemma retry_same_compiler_counterexample :
  ~ (forall IS_WINDOWS language code_file exe,
        language ∈ ["c"; "cpp"] ->
        compiler_of (retry_command IS_WINDOWS language code_file exe
                       (get_compile_command IS_WINDOWS code_file language exe))
        <> compiler_of (get_compile_command IS_WINDOWS code_file language exe)).
Proof.
  intros H. apply (H false "c" "/tmp/z/code.c" "/tmp/z/program.out"); [set_solver|].
  reflexivity.
Qed.

(** ** Finalization happens once (C1) *)

Section RegistryFacts.
Variable IS_WINDOWS : bool.

Lemma unknown_after_delete (reg : gmap string nat) sid id :
  reg !! id = None -> delete sid reg !! id = None.
Proof. intros H. apply lookup_delete_None. by right. Qed.

(** The registry after [provide_input]: untouched, or without the id of
    the request, and without it whenever the answer is COMPLETED. *)
Lemma provide_input_registry win data w :
  let sid := default "" (req_session_id data) in
  let resp := (provide_input IS_WINDOWS win data w).1 in
  let reg' := execution_sessions (provide_input IS_WINDOWS win data w).2 in
  reg' = delete sid (execution_sessions w)
  \/ (reg' = execution_sessions w /\ ~ final_status (Some resp)).
Proof.
  cbv zeta. unfold provide_input.
  destruct (execution_sessions w !! _) as [r|]; [|right; by split; [|intros []]].
  destruct (objects w !! r) as [s|]; [|right; by split; [|intros []]].
  destruct (exited s); [by left|].
  destruct (sample win _) as [[session output_lines] error_lines].
  destruct (exited session).
  - destruct (drain_now _ _ _) as [[? ?] ?]. by left.
  - right. by split; [|intros []].
Qed.

Lemma check_status_registry settle sid w :
  let resp := (check_status IS_WINDOWS settle sid w).1 in
  let reg' := execution_sessions (check_status IS_WINDOWS settle sid w).2 in
  reg' = delete sid (execution_sessions w)
  \/ (reg' = execution_sessions w /\ ~ final_status (Some resp)).
Proof.
  cbv zeta. unfold check_status.
  destruct (execution_sessions w !! _) as [r|]; [|right; by split; [|intros []]].
  destruct (objects w !! r) as [s|]; [|right; by split; [|intros []]].
  destruct (drain_now _ _ _) as [[session ?] ?].
  destruct (exited (acts settle session)); [by left|].
  right. by split; [|intros []].
Qed.

Lemma terminate_session_registry waiting sid w :
  let resp := (terminate_session IS_WINDOWS waiting sid w).1 in
  let reg' := execution_sessions (terminate_session IS_WINDOWS waiting sid w).2 in
  reg' = delete sid (execution_sessions w)
  \/ (reg' = execution_sessions w /\ ~ final_status (Some resp)).
Proof.
  cbv zeta. unfold terminate_session.
  destruct (execution_sessions w !! _) as [r|]; [|right; by split; [|intros []]].
  destruct (objects w !! r) as [s|]; [|right; by split; [|intros []]].
  by left.
Qed.

(** The registry after [execute_code]: only the drawn id can have
    changed, and after a COMPLETED answer that id is not registered. *)
Lemma execute_code_registry h win data w id :
  let resp := (execute_code IS_WINDOWS h win data w).1 in
  let reg' := execution_sessions (execute_code IS_WINDOWS h win data w).2 in
  (id <> uuid4 h -> reg' !! id = execution_sessions w !! id)
  /\ (final_status (Some resp) -> reg' !! uuid4 h = None).
Proof.
  cbv zeta. unfold execute_code.
  destruct (negb _); [by split; [|intros []]|].
  destruct (compile_step _ _ _ _ _).1 as [exe|r|e] eqn:Hc.
  - destruct (Popen_start h _); [by split; [|intros []]|].
    destruct (sample win _) as [[session io] ie].
    destruct (exited session); simpl.
    + split; [|intros _; apply lookup_delete_eq].
      intros Hne. by rewrite lookup_delete_ne, lookup_insert_ne.
    + split; [|intros []]. intros Hne. by rewrite lookup_insert_ne.
  - apply compile_step_return in Hc as (e & d & ->). by split; [|intros []].
  - by split; [|intros []].
Qed.

Lemma reap_unknown w sid id :
  execution_sessions w !! id = None ->
  execution_sessions (reap IS_WINDOWS w sid) !! id = None.
Proof.
  intros H. unfold reap. destruct (lookup_session w sid) as [[r s]|]; [|done].
  by apply unknown_after_delete.
Qed.

Lemma cleanup_old_sessions_unknown w id :
  execution_sessions w !! id = None ->
  execution_sessions (cleanup_old_sessions IS_WINDOWS w) !! id = None.
Proof.
  unfold cleanup_old_sessions. generalize (sessions_to_remove w) as ids.
  intros ids. revert w. induction ids as [|sid ids IH]; intros w H; [done|].
  simpl. by apply IH, reap_unknown.
Qed.

(** An id that is not registered stays so, unless a start request draws
    it again. *)
Lemma serve_unknown q w id :
  ~ redraws id q ->
  execution_sessions w !! id = None ->
  execution_sessions (serve IS_WINDOWS q w).2 !! id = None.
Proof.
  intros Hnew Hid. destruct q as [h win data|win data|settle sid|waiting sid| |r evs]; simpl.
  - destruct (execute_code_registry h win data w id) as [Hkeep _].
    destruct (execute_code IS_WINDOWS h win data w) as [resp w'].
    simpl in *. rewrite Hkeep; [done|]. by intros ->.
  - destruct (provide_input_registry win data w) as [H|[H _]];
      destruct (provide_input IS_WINDOWS win data w) as [resp w'];
      simpl in *; rewrite H; [by apply unknown_after_delete|done].
  - destruct (check_status_registry settle sid w) as [H|[H _]];
      destruct (check_status IS_WINDOWS settle sid w) as [resp w'];
      simpl in *; rewrite H; [by apply unknown_after_delete|done].
  - destruct (terminate_session_registry waiting sid w) as [H|[H _]];
      destruct (terminate_session IS_WINDOWS waiting sid w) as [resp w'];
      simpl in *; rewrite H; [by apply unknown_after_delete|done].
  - by apply cleanup_old_sessions_unknown.
  - done.
Qed.

Lemma serve_all_unknown qs w id :
  Forall (fun q => ~ redraws id q) qs ->
  execution_sessions w !! id = None ->
  execution_sessions (serve_all IS_WINDOWS qs w) !! id = None.
Proof.
  intros Hqs. revert w. induction Hqs as [|q qs Hq _ IH]; intros w H; [done|].
  unfold serve_all in *. simpl. by apply IH, serve_unknown.
Qed.

(** A request answered COMPLETED or TERMINATED leaves its id
    unregistered. *)
Lemma serve_final_unknown q w id :
  subject q = Some id ->
  final_status (serve IS_WINDOWS q w).1 ->
  execution_sessions (serve IS_WINDOWS q w).2 !! id = None.
Proof.
  destruct q as [h win data|win data|settle sid|waiting sid| |r evs]; simpl;
    intros [= <-].
  - destruct (execute_code_registry h win data w (uuid4 h)) as [_ Hfin].
    destruct (execute_code IS_WINDOWS h win data w) as [resp w']. simpl in *. auto.
  - destruct (provide_input_registry win data w) as [H|[_ H]];
      destruct (provide_input IS_WINDOWS win data w) as [resp w'];
      simpl in *; intros Hf; [|done]. rewrite H. apply lookup_delete_eq.
  - destruct (check_status_registry settle sid w) as [H|[_ H]];
      destruct (check_status IS_WINDOWS settle sid w) as [resp w'];
      simpl in *; intros Hf; [|done]. rewrite H. apply lookup_delete_eq.
  - destruct (terminate_session_registry waiting sid w) as [H|[_ H]];
      destruct (terminate_session IS_WINDOWS waiting sid w) as [resp w'];
      simpl in *; intros Hf; [|done]. rewrite H. apply lookup_delete_eq.
Qed.

End RegistryFacts.

(** C1: once a request about the id [id] has been answered COMPLETED or
    TERMINATED, then after any further requests, reaper passes and worker
    activity (none of them a start request that draws [id] again), every
    input, status and terminate request for [id] is answered
    "Invalid session ID" and changes nothing. *)
Theorem finalize_at_most_once IS_WINDOWS q w id later :
  subject q = Some id ->
  final_status (serve IS_WINDOWS q w).1 ->
  Forall (fun q' => ~ redraws id q') later ->
  let w' := serve_all IS_WINDOWS later (serve IS_WINDOWS q w).2 in
  execution_sessions w' !! id = None
  /\ (forall win text,
        provide_input IS_WINDOWS win {| req_session_id := Some id; req_input := text |} w'
        = (invalid_session, w'))
  /\ (forall settle, check_status IS_WINDOWS settle id w' = (invalid_session, w'))
  /\ (forall waiting, terminate_session IS_WINDOWS waiting id w' = (invalid_session, w')).
Proof.
  intros Hsubj Hfinal Hlater w'.
  assert (execution_sessions w' !! id = None) as Hgone.
  { apply serve_all_unknown; [done|]. by apply serve_final_unknown. }
  split; [done|]. split; [|split].
  - intros win text. unfold provide_input.
    change (default "" (req_session_id {| req_session_id := Some id; req_input := text |}))
      with id.
    by rewrite Hgone.
  - intros settle. unfold check_status. by rewrite Hgone.
  - intros waiting. unfold terminate_session. by rewrite Hgone.
Qed.

Lemma finalize_at_most_once_witness :
  let w' := serve_all false [Reap; Input Sample.quiet (Sample.to_abc "7")]
              (serve false (Terminate [] "abc") Sample.world_running).2 in
  execution_sessions w' !! "abc" = None
  /\ check_status false [] "abc" w' = (invalid_session, w')
  /\ terminate_session false [] "abc" w' = (invalid_session, w').
Proof.
  intros w'.
  destruct (finalize_at_most_once false (Terminate [] "abc") Sample.world_running "abc"
              [Reap; Input Sample.quiet (Sample.to_abc "7")])
    as (Hgone & _ & Hstatus & Hterm).
  - reflexivity.
  - vm_compute. exact I.
  - repeat constructor; intros [].
  - split; [exact Hgone|]. split; [apply Hstatus | apply Hterm].
Defined.

(** ** Registered ids always have their object *)

Section RegistryOk.
Variable IS_WINDOWS : bool.

Lemma registry_ok_forget sid r s w :
  registry_ok w -> registry_ok (forget IS_WINDOWS sid r s w).
Proof.
  intros Hok id r0 H. simpl in *.
  apply lookup_delete_Some in H as [_ H]. apply Hok in H.
  destruct (decide (r = r0)) as [->|Hne].
  - rewrite lookup_insert_eq. by eexists.
  - by rewrite lookup_insert_ne.
Qed.

Lemma registry_ok_keep r s w : registry_ok w -> registry_ok (keep r s w).
Proof.
  intros Hok id r0 H. simpl in *. apply Hok in H.
  destruct (decide (r = r0)) as [->|Hne].
  - rewrite lookup_insert_eq. by eexists.
  - by rewrite lookup_insert_ne.
Qed.

Lemma registry_ok_register sid r s fs w :
  registry_ok w -> registry_ok (register sid r s fs w).
Proof.
  intros Hok id r0 H. simpl in *.
  destruct (decide (r = r0)) as [->|Hne].
  - rewrite lookup_insert_eq. by eexists.
  - rewrite lookup_insert_ne by done.
    destruct (decide (sid = id)) as [->|Hid].
    + rewrite lookup_insert_eq in H. congruence.
    + rewrite lookup_insert_ne in H by done. by apply Hok in H.
Qed.

Lemma registry_ok_files fs w :
  registry_ok w -> registry_ok (mkWorld (objects w) (execution_sessions w) fs).
Proof. done. Qed.

Lemma execute_code_registry_ok h win data w :
  registry_ok w -> registry_ok (execute_code IS_WINDOWS h win data w).2.
Proof.
  intros Hok. unfold execute_code.
  destruct (negb _); [done|].
  destruct (compile_step _ _ _ _ _).1 as [exe|r|e]; [|by apply registry_ok_files..].
  destruct (Popen_start h _); [by apply registry_ok_files|].
  destruct (sample win _) as [[session io] ie].
  destruct (exited session); simpl.
  - by apply registry_ok_forget, registry_ok_register.
  - by apply registry_ok_keep, registry_ok_register.
Qed.

Lemma provide_input_registry_ok win data w :
  registry_ok w -> registry_ok (provide_input IS_WINDOWS win data w).2.
Proof.
  intros Hok. unfold provide_input.
  destruct (execution_sessions w !! _) as [r|]; [|done].
  destruct (objects w !! r) as [s|]; [|done].
  destruct (exited s); [by apply registry_ok_forget|].
  destruct (sample win _) as [[session output_lines] error_lines].
  destruct (exited session).
  - destruct (drain_now _ _ _) as [[? ?] ?]. by apply registry_ok_forget.
  - by apply registry_ok_keep.
Qed.

Lemma check_status_registry_ok settle sid w :
  registry_ok w -> registry_ok (check_status IS_WINDOWS settle sid w).2.
Proof.
  intros Hok. unfold check_status.
  destruct (execution_sessions w !! _) as [r|]; [|done].
  destruct (objects w !! r) as [s|]; [|done].
  destruct (drain_now _ _ _) as [[session ?] ?].
  destruct (exited (acts settle session));
    [by apply registry_ok_forget | by apply registry_ok_keep].
Qed.

Lemma terminate_session_registry_ok waiting sid w :
  registry_ok w -> registry_ok (terminate_session IS_WINDOWS waiting sid w).2.
Proof.
  intros Hok. unfold terminate_session.
  destruct (execution_sessions w !! _) as [r|]; [|done].
  destruct (objects w !! r) as [s|]; [|done].
  by apply registry_ok_forget.
Qed.

Lemma cleanup_old_sessions_registry_ok w :
  registry_ok w -> registry_ok (cleanup_old_sessions IS_WINDOWS w).
Proof.
  unfold cleanup_old_sessions. generalize (sessions_to_remove w) as ids.
  intros ids. revert w. induction ids as [|sid ids IH]; intros w Hok; [done|].
  simpl. apply IH. unfold reap.
  destruct (lookup_session w sid) as [[r s]|]; [|done].
  intros id r0 H. simpl in *. apply lookup_delete_Some in H as [_ H]. by apply Hok in H.
Qed.

(** No request leaves a registered id without its object, so the handlers
    never answer [no_object] in a world reached from the empty one. *)
Lemma serve_registry_ok q w :
  registry_ok w -> registry_ok (serve IS_WINDOWS q w).2.
Proof.
  intros Hok. destruct q as [h win data|win data|settle sid|waiting sid| |r evs]; simpl.
  - pose proof (execute_code_registry_ok h win data w Hok).
    by destruct (execute_code IS_WINDOWS h win data w).
  - pose proof (provide_input_registry_ok win data w Hok).
    by destruct (provide_input IS_WINDOWS win data w).
  - pose proof (check_status_registry_ok settle sid w Hok).
    by destruct (check_status IS_WINDOWS settle sid w).
  - pose proof (terminate_session_registry_ok waiting sid w Hok).
    by destruct (terminate_session IS_WINDOWS waiting sid w).
  - by apply cleanup_old_sessions_registry_ok.
  - intros id r0 H. simpl in *. apply Hok in H as [s Hs].
    rewrite lookup_alter. case_decide; simplify_eq; rewrite ?Hs; by eexists.
Qed.

Lemma serve_all_registry_ok qs w :
  registry_ok w -> registry_ok (serve_all IS_WINDOWS qs w).
Proof.
  revert w. induction qs as [|q qs IH]; intros w Hok; [done|].
  unfold serve_all in *. simpl. by apply IH, serve_registry_ok.
Qed.

End RegistryOk.

(** * Further properties of the code *)

Lemma pair_with_snd {A B} (p : A * B) (a : A) : p.1 = a -> p = (a, p.2).
Proof. destruct p. simpl. by intros ->. Qed.

(** ** [cleanup_temp_files] *)

Section CleanupFacts.
Variable IS_WINDOWS : bool.

Lemma cleanup_one_lookup fs filepath p b :
  cleanup_one IS_WINDOWS fs filepath !! p = Some b -> fs !! p = Some b.
Proof.
  unfold cleanup_one. destruct (fs !! filepath) as [[]|]; [| |done].
  - rewrite rmtree_lookup. case_decide; [done|].
    by destruct (under IS_WINDOWS filepath p).
  - intros H. by apply lookup_delete_Some in H as [_ H].
Qed.

Lemma cleanup_one_gone fs filepath : cleanup_one IS_WINDOWS fs filepath !! filepath = None.
Proof.
  unfold cleanup_one. destruct (fs !! filepath) as [[]|] eqn:E; [| |done].
  - rewrite rmtree_lookup. by rewrite decide_True.
  - apply lookup_delete_eq.
Qed.

Lemma cleanup_lookup temp_files fs p b :
  cleanup_temp_files IS_WINDOWS temp_files fs !! p = Some b -> fs !! p = Some b.
Proof.
  unfold cleanup_temp_files. revert fs.
  induction temp_files as [|f temp_files IH]; intros fs; [done|].
  simpl. intros H. by apply IH, cleanup_one_lookup in H.
Qed.

Lemma cleanup_none temp_files fs p :
  fs !! p = None -> cleanup_temp_files IS_WINDOWS temp_files fs !! p = None.
Proof.
  intros H. destruct (cleanup_temp_files _ _ _ !! p) as [b|] eqn:E; [|done].
  apply cleanup_lookup in E. congruence.
Qed.

Lemma cleanup_listed_gone temp_files fs p :
  p ∈ temp_files -> cleanup_temp_files IS_WINDOWS temp_files fs !! p = None.
Proof.
  revert fs. induction temp_files as [|f temp_files IH]; intros fs Hp.
  - by apply elem_of_nil in Hp.
  - apply elem_of_cons in Hp as [->|Hp].
    + apply (cleanup_none temp_files), cleanup_one_gone.
    + by apply (IH (cleanup_one IS_WINDOWS fs f)).
Qed.

Lemma cleanup_one_or_fail_lookup fails survives fs filepath p b :
  cleanup_one_or_fail IS_WINDOWS fails survives fs filepath !! p = Some b ->
  fs !! p = Some b.
Proof.
  unfold cleanup_one_or_fail.
  destruct (fs !! filepath) as [[]|]; [| |done]; destruct (fails filepath); try done.
  - intros H. by apply map_lookup_filter_Some in H as [H _].
  - rewrite rmtree_lookup. case_decide; [done|].
    by destruct (under IS_WINDOWS filepath p).
  - intros H. by apply lookup_delete_Some in H as [_ H].
Qed.

Lemma cleanup_or_fail_none fails survives temp_files fs p :
  fs !! p = None ->
  cleanup_temp_files_or_fail IS_WINDOWS fails survives temp_files fs !! p = None.
Proof.
  unfold cleanup_temp_files_or_fail. revert fs.
  induction temp_files as [|f temp_files IH]; intros fs H; [done|].
  simpl. apply IH.
  destruct (cleanup_one_or_fail _ _ _ fs f !! p) as [b|] eqn:E; [|done].
  apply cleanup_one_or_fail_lookup in E. congruence.
Qed.

(** X1: after [cleanup_temp_files], every listed path whose deletion did
    not raise is gone, whatever was on disk, whatever the order of the
    list, and whichever other deletions failed along the way; and when no
    deletion raises, the loop is the [cleanup_temp_files] used by the
    handlers. *)
Theorem cleanup_removes_listed fails survives temp_files fs :
  (forall p, p ∈ temp_files -> fails p = false ->
      cleanup_temp_files_or_fail IS_WINDOWS fails survives temp_files fs !! p = None)
  /\ (forall survives',
      cleanup_temp_files_or_fail IS_WINDOWS (fun _ => false) survives' temp_files fs
      = cleanup_temp_files IS_WINDOWS temp_files fs).
Proof.
  split.
  - revert fs. induction temp_files as [|f temp_files IH]; intros fs p Hp Hok.
    + by apply elem_of_nil in Hp.
    + apply elem_of_cons in Hp as [->|Hp].
      * apply (cleanup_or_fail_none fails survives temp_files).
        unfold cleanup_one_or_fail. rewrite Hok.
        destruct (fs !! f) as [[]|] eqn:E; [| |done].
        -- rewrite rmtree_lookup. by rewrite decide_True.
        -- apply lookup_delete_eq.
      * by apply (IH (cleanup_one_or_fail IS_WINDOWS fails survives fs f)).
  - intros survives'. unfold cleanup_temp_files_or_fail, cleanup_temp_files.
    revert fs. induction temp_files as [|f temp_files IH]; intros fs; [done|].
    simpl. rewrite IH. f_equal.
Qed.

Lemma cleanup_outside temp_files fs p :
  p ∉ temp_files ->
  Forall (fun d => under IS_WINDOWS d p = false) temp_files ->
  cleanup_temp_files IS_WINDOWS temp_files fs !! p = fs !! p.
Proof.
  unfold cleanup_temp_files. revert fs.
  induction temp_files as [|f temp_files IH]; intros fs Hp Hu; [done|].
  apply not_elem_of_cons in Hp as [Hne Hp]. inversion_clear Hu as [|? ? Hf Hu'].
  simpl. rewrite IH by done. unfold cleanup_one.
  destruct (fs !! f) as [[]|]; [| |done].
  - rewrite rmtree_lookup, decide_False by done. by rewrite Hf.
  - by apply lookup_delete_ne.
Qed.

(** X2: [cleanup_temp_files] only removes: a path that exists afterwards
    existed before, with the same kind; and a path that is neither listed
    nor below a listed path is left exactly as it was. *)
Theorem cleanup_only_removes temp_files fs p :
  (forall b, cleanup_temp_files IS_WINDOWS temp_files fs !! p = Some b -> fs !! p = Some b)
  /\ (p ∉ temp_files ->
      Forall (fun d => under IS_WINDOWS d p = false) temp_files ->
      cleanup_temp_files IS_WINDOWS temp_files fs !! p = fs !! p).
Proof. split; [intros b; apply cleanup_lookup | apply cleanup_outside]. Qed.

(** X3: cleaning up twice is the same as cleaning up once. *)
Theorem cleanup_idempotent temp_files fs :
  cleanup_temp_files IS_WINDOWS temp_files (cleanup_temp_files IS_WINDOWS temp_files fs)
  = cleanup_temp_files IS_WINDOWS temp_files fs.
Proof.
  apply cleanup_absent, Forall_forall. intros p Hp. by apply cleanup_listed_gone.
Qed.

End CleanupFacts.

Lemma cleanup_removes_listed_witness :
  cleanup_temp_files_or_fail false (fun p => bool_decide (p = "/tmp/x"))
    (fun _ _ => true) ["/tmp/x/code.py"; "/tmp/x"; "/tmp/keep"] Sample.scratch
    !! "/tmp/keep" = None.
Proof.
  destruct (cleanup_removes_listed false (fun p => bool_decide (p = "/tmp/x"))
              (fun _ _ => true) ["/tmp/x/code.py"; "/tmp/x"; "/tmp/keep"] Sample.scratch)
    as [H _].
  apply H; [|reflexivity].
  apply list_elem_of_further, list_elem_of_further, list_elem_of_here.
Defined.

Lemma cleanup_only_removes_witness :
  cleanup_temp_files false ["/tmp/x"; "/tmp/x/code.py"] Sample.scratch !! "/tmp/keep"
  = Some false.
Proof.
  destruct (cleanup_only_removes false ["/tmp/x"; "/tmp/x/code.py"] Sample.scratch
              "/tmp/keep") as [_ H].
  rewrite H; [reflexivity|set_solver|by repeat constructor].
Defined.

(** ** What the workers leave alone *)

(** The workers change neither the id, nor the list of scratch files, nor
    the record of signals sent. *)
Lemma act_static a s :
  session_id (act a s) = session_id s
  /\ temp_files (act a s) = temp_files s
  /\ signals (process (act a s)) = signals (process s).
Proof.
  destruct s as [id [rc buf pipe cl br ocl ecl sg] inq outq tf wf cf fo eo].
  destruct a as [[line|e]|[line|e]| |rc'|]; simpl.
  - destruct ocl; [done|]. unfold output_reader_iter, exited; simpl.
    destruct (bool_decide (line = "")); simpl; [by destruct rc|].
    by destruct (any_keyword_in (Text.lower line)).
  - by destruct ocl.
  - destruct ecl; [done|]. unfold error_reader_iter, exited; simpl.
    destruct (bool_decide (line = "")); simpl; [by destruct rc|done].
  - by destruct ecl.
  - destruct cl; [done|]. unfold input_writer_iter, exited; simpl.
    destruct inq as [|[data|] inq]; simpl; [by destruct rc| |done].
    destruct rc; [done|]. by destruct br.
  - by destruct rc.
  - done.
Qed.

Lemma acts_static evs s :
  session_id (acts evs s) = session_id s
  /\ temp_files (acts evs s) = temp_files s
  /\ signals (process (acts evs s)) = signals (process s).
Proof.
  revert s. induction evs as [|a evs IH]; intros s; [done|].
  rewrite acts_cons. destruct (IH (act a s)) as (-> & -> & ->). apply act_static.
Qed.

Lemma drain_window_static ticks s outs errs :
  let s' := (drain_window ticks s outs errs).1.1 in
  session_id s' = session_id s /\ temp_files s' = temp_files s
  /\ signals (process s') = signals (process s).
Proof.
  revert s outs errs. induction ticks as [|evs ticks IH]; intros s outs errs; [done|].
  simpl. destruct (acts_static evs s) as (Hid & Htf & Hsg).
  destruct (output_queue (acts evs s)) as [|[[] msg] q].
  - destruct (exited (acts evs s)); [done|].
    destruct (IH (acts evs s) outs errs) as (-> & -> & ->). done.
  - destruct (IH (with_output_queue q (acts evs s)) (outs ++ [msg]) errs) as (-> & -> & ->).
    done.
  - destruct (IH (with_output_queue q (acts evs s)) outs (errs ++ [msg])) as (-> & -> & ->).
    done.
Qed.

Lemma sample_static win s :
  let s' := (sample win s).1.1 in
  session_id s' = session_id s /\ temp_files s' = temp_files s
  /\ signals (process s') = signals (process s).
Proof.
  unfold sample.
  pose proof (drain_window_static (polling win) (acts (asleep win) s) [] []) as Hd.
  destruct (drain_window _ _ _ _) as [[s1 outs] errs]. simpl in *.
  destruct Hd as (Hid & Htf & Hsg).
  destruct (acts_static (settling win) s1) as (-> & -> & ->).
  destruct (acts_static (asleep win) s) as (Hid' & Htf' & Hsg').
  by rewrite Hid, Htf, Hsg.
Qed.

(** ** The readers keep the order of the lines *)

Lemma lines_of_app ty q1 q2 : lines_of ty (q1 ++ q2) = lines_of ty q1 ++ lines_of ty q2.
Proof. apply omap_app. Qed.

Lemma act_stdout_lines a s :
  stdout_closed (process s) = false ->
  (forall e, a <> StdoutRead (ReadFault e)) ->
  lines_of output (output_queue (act a s))
  = lines_of output (output_queue s) ++ stdout_texts [a].
Proof.
  destruct s as [id [rc buf pipe cl br ocl ecl sg] inq outq tf wf cf fo eo].
  simpl. intros -> Hnf.
  destruct a as [[line|e]|[line|e]| |rc'|]; simpl;
    rewrite ?app_nil_r; try done.
  - unfold output_reader_iter, exited, stdout_texts; simpl.
    destruct (bool_decide (line = "")); simpl.
    + rewrite app_nil_r. by destruct rc.
    + destruct (any_keyword_in (Text.lower line)); simpl;
        unfold put; by rewrite lines_of_app.
  - by destruct (Hnf e).
  - destruct ecl; [done|]. unfold error_reader_iter, exited; simpl.
    destruct (bool_decide (line = "")); simpl; [by destruct rc|].
    unfold put. rewrite lines_of_app. apply app_nil_r.
  - destruct ecl; [done|]. simpl. unfold put. rewrite lines_of_app. apply app_nil_r.
  - destruct cl; [done|]. unfold input_writer_iter, exited; simpl.
    destruct inq as [|[data|] inq]; simpl; [by destruct rc| |done].
    destruct rc; [done|]. by destruct br.
  - by destruct rc.
Qed.

(** X4: while the stdout reader runs (no read fault, process alive at the
    end), the stdout texts in the output queue are those that were there
    followed by the right-stripped non-empty lines read, in the order read:
    nothing is dropped, duplicated or reordered, whatever the other workers
    do in between. *)
Theorem output_reader_fifo evs s :
  stdout_closed (process s) = false ->
  (forall e, StdoutRead (ReadFault e) ∉ evs) ->
  exited (acts evs s) = false ->
  lines_of output (output_queue (acts evs s))
  = lines_of output (output_queue s) ++ stdout_texts evs.
Proof.
  revert s. induction evs as [|a evs IH]; intros s Hopen Hnf Hex.
  - simpl. by rewrite app_nil_r.
  - rewrite acts_cons in *.
    assert (forall e, a <> StdoutRead (ReadFault e)) as Ha.
    { intros e ->. apply (Hnf e). left. }
    rewrite IH; [| |by intros e He; apply (Hnf e); right|done].
    + rewrite act_stdout_lines by done.
      rewrite <- app_assoc. f_equal. symmetry. apply (omap_app _ [a] evs).
    + apply act_stdout_open; [done..|].
      apply (acts_not_exited_prefix [a] evs s). by rewrite <- acts_cons in Hex.
Qed.

Lemma output_reader_fifo_witness :
  lines_of output
    (output_queue
       (acts [StdoutRead (ReadLine ("a  " +:+ Text.newline));
              StderrRead (ReadLine ("oops" +:+ Text.newline));
              StdoutRead (ReadLine "");
              StdoutRead (ReadLine ("b" +:+ Text.newline))] Sample.running))
  = ["a"; "b"].
Proof.
  rewrite output_reader_fifo; [reflexivity|reflexivity| |reflexivity].
  intros e He. repeat (apply elem_of_cons in He as [He|He]; [discriminate He|]).
  by apply elem_of_nil in He.
Defined.

Lemma act_stderr_open a s :
  stderr_closed (process s) = false ->
  (forall e, a <> StderrRead (ReadFault e)) ->
  exited (act a s) = false ->
  stderr_closed (process (act a s)) = false.
Proof.
  destruct s as [id [rc buf pipe cl br ocl ecl sg] inq outq tf wf cf fo eo].
  simpl. intros -> Hnf.
  destruct a as [[line|e]|[line|e]| |rc'|]; simpl; try done.
  - destruct ocl; [done|]. unfold output_reader_iter, exited; simpl.
    destruct (bool_decide (line = "")); simpl; [by destruct rc|].
    by destruct (any_keyword_in (Text.lower line)).
  - by destruct ocl.
  - unfold error_reader_iter, exited; simpl.
    destruct (bool_decide (line = "")); simpl; [by destruct rc|done].
  - by destruct (Hnf e).
  - destruct cl; [done|]. unfold input_writer_iter, exited; simpl.
    destruct inq as [|[data|] inq]; simpl; [by destruct rc| |done].
    destruct rc; [done|]. by destruct br.
  - by destruct rc.
Qed.

Lemma act_stderr_lines a s :
  stderr_closed (process s) = false ->
  (forall e, a <> StderrRead (ReadFault e)) ->
  (forall e, a <> StdoutRead (ReadFault e)) ->
  lines_of error (output_queue (act a s))
  = lines_of error (output_queue s) ++ stderr_texts [a].
Proof.
  destruct s as [id [rc buf pipe cl br ocl ecl sg] inq outq tf wf cf fo eo].
  simpl. intros -> Hnf Hnf'.
  destruct a as [[line|e]|[line|e]| |rc'|]; simpl;
    rewrite ?app_nil_r; try done.
  - destruct ocl; [done|]. unfold output_reader_iter, exited; simpl.
    destruct (bool_decide (line = "")); simpl; [by destruct rc|].
    destruct (any_keyword_in (Text.lower line)); simpl;
      unfold put; rewrite lines_of_app; apply app_nil_r.
  - by destruct (Hnf' e).
  - unfold error_reader_iter, exited, stderr_texts; simpl.
    destruct (bool_decide (line = "")); simpl.
    + rewrite app_nil_r. by destruct rc.
    + unfold put. by rewrite lines_of_app.
  - by destruct (Hnf e).
  - destruct cl; [done|]. unfold input_writer_iter, exited; simpl.
    destruct inq as [|[data|] inq]; simpl; [by destruct rc| |done].
    destruct rc; [done|]. by destruct br.
  - by destruct rc.
Qed.

(** X5: while no reader faults and the process is alive at the end, the
    stderr texts in the output queue are those that were there followed by
    the right-stripped non-empty lines the stderr reader read, in the order
    read. *)
Theorem error_reader_fifo evs s :
  stderr_closed (process s) = false ->
  (forall e, StderrRead (ReadFault e) ∉ evs) ->
  (forall e, StdoutRead (ReadFault e) ∉ evs) ->
  exited (acts evs s) = false ->
  lines_of error (output_queue (acts evs s))
  = lines_of error (output_queue s) ++ stderr_texts evs.
Proof.
  revert s. induction evs as [|a evs IH]; intros s Hopen Hnf Hnf' Hex.
  - simpl. by rewrite app_nil_r.
  - rewrite acts_cons in *.
    assert (forall e, a <> StderrRead (ReadFault e)) as Ha.
    { intros e ->. apply (Hnf e). left. }
    assert (forall e, a <> StdoutRead (ReadFault e)) as Ha'.
    { intros e ->. apply (Hnf' e). left. }
    rewrite IH; [| |by intros e He; apply (Hnf e); right
                 |by intros e He; apply (Hnf' e); right|done].
    + rewrite act_stderr_lines by done.
      rewrite <- app_assoc. f_equal. symmetry. apply (omap_app _ [a] evs).
    + apply act_stderr_open; [done..|].
      apply (acts_not_exited_prefix [a] evs s). by rewrite <- acts_cons in Hex.
Qed.

Lemma error_reader_fifo_witness :
  lines_of error
    (output_queue
       (acts [StderrRead (ReadLine ("warning: x " +:+ Text.newline));
              StdoutRead (ReadLine ("a" +:+ Text.newline));
              StderrRead (ReadLine ("error: y" +:+ Text.newline))] Sample.running))
  = ["warning: x"; "error: y"].
Proof.
  rewrite error_reader_fifo; [reflexivity|reflexivity| | |reflexivity].
  - intros e He. repeat (apply elem_of_cons in He as [He|He]; [discriminate He|]).
    by apply elem_of_nil in He.
  - intros e He. repeat (apply elem_of_cons in He as [He|He]; [discriminate He|]).
    by apply elem_of_nil in He.
Defined.

(** ** The bounded loop loses nothing *)

(** What the workers append does not depend on what is queued already. *)
Lemma act_queue a s :
  output_queue (act a s) = output_queue s ++ output_queue (act a (core s)).
Proof.
  destruct s as [id [rc buf pipe cl br ocl ecl sg] inq outq tf wf cf fo eo].
  destruct a as [[line|e]|[line|e]| |rc'|]; simpl; rewrite ?app_nil_r.
  - destruct ocl; simpl; [by rewrite app_nil_r|].
    unfold output_reader_iter, exited; simpl.
    destruct (bool_decide (line = "")); simpl; [destruct rc; simpl; by rewrite app_nil_r|].
    by destruct (any_keyword_in (Text.lower line)).
  - destruct ocl; simpl; [by rewrite app_nil_r|done].
  - destruct ecl; simpl; [by rewrite app_nil_r|].
    unfold error_reader_iter, exited; simpl.
    destruct (bool_decide (line = "")); simpl; [destruct rc; simpl; by rewrite app_nil_r|done].
  - destruct ecl; simpl; [by rewrite app_nil_r|done].
  - destruct cl; simpl; [by rewrite app_nil_r|].
    unfold input_writer_iter, exited; simpl.
    destruct inq as [|[data|] inq]; simpl;
      [destruct rc; simpl; by rewrite app_nil_r| |by rewrite app_nil_r].
    destruct rc; simpl; [by rewrite app_nil_r|]. destruct br; simpl; by rewrite app_nil_r.
  - destruct rc; simpl; by rewrite app_nil_r.
  - done.
Qed.

Lemma acts_queue evs s :
  output_queue (acts evs s) = output_queue s ++ output_queue (acts evs (core s)).
Proof.
  revert s. induction evs as [|a evs IH]; intros s.
  - simpl. by rewrite app_nil_r.
  - rewrite !acts_cons. rewrite (IH (act a s)), (IH (act a (core s))), (act_queue a s).
    rewrite <- act_core, <- app_assoc. reflexivity.
Qed.

Lemma acts_queue_with q evs s :
  output_queue (acts evs (with_output_queue q s)) = q ++ output_queue (acts evs (core s)).
Proof. by rewrite acts_queue. Qed.

(** After a loop that ends with the process alive: what was captured,
    followed by what is still queued, is what the schedule alone would have
    left in the queue. *)
Lemma drain_window_conserves ty ticks s outs errs :
  exited (drain_window ticks s outs errs).1.1 = false ->
  let '(s', outs', errs') := drain_window ticks s outs errs in
  (match ty with output => outs' | error => errs' end) ++ lines_of ty (output_queue s')
  = (match ty with output => outs | error => errs end)
    ++ lines_of ty (output_queue (acts (concat ticks) s)).
Proof.
  revert s outs errs. induction ticks as [|evs ticks IH]; intros s outs errs.
  - simpl. by destruct ty.
  - simpl. rewrite acts_app.
    destruct (output_queue (acts evs s)) as [|[[] msg] q] eqn:Hq.
    + destruct (exited (acts evs s)) eqn:Hex; simpl; [by rewrite Hex|].
      apply IH.
    + intros H. specialize (IH _ _ _ H).
      destruct (drain_window ticks _ _ _) as [[s' outs'] errs'].
      rewrite IH, acts_queue_with, (acts_queue (concat ticks) (acts evs s)), Hq.
      rewrite !lines_of_app. destruct ty; simpl; [|done].
      by rewrite <- !app_assoc.
    + intros H. specialize (IH _ _ _ H).
      destruct (drain_window ticks _ _ _) as [[s' outs'] errs'].
      rewrite IH, acts_queue_with, (acts_queue (concat ticks) (acts evs s)), Hq.
      rewrite !lines_of_app. destruct ty; simpl; [done|].
      by rewrite <- !app_assoc.
Qed.

(** X6: when the process is still running at the end of a handler's
    window, the lines captured, followed by the lines still queued, are
    exactly the lines queued before the window followed by those the
    readers queued during it, per stream and in order: the bounded loop
    neither loses nor duplicates nor reorders a line. *)
Theorem sample_conserves win s :
  exited (sample win s).1.1 = false ->
  let '(s', outs, errs) := sample win s in
  outs ++ lines_of output (output_queue s')
  = lines_of output (output_queue (acts (all_actions win) s))
  /\ errs ++ lines_of error (output_queue s')
     = lines_of error (output_queue (acts (all_actions win) s)).
Proof.
  unfold sample, all_actions. rewrite !acts_app.
  set (s0 := acts (asleep win) s).
  pose proof (drain_window_conserves output (polling win) s0 [] []) as Hout.
  pose proof (drain_window_conserves error (polling win) s0 [] []) as Herr.
  pose proof (drain_window_core (polling win) s0 [] []) as Hcore.
  destruct (drain_window (polling win) s0 [] []) as [[s1 outs] errs]. simpl in *.
  intros Hex.
  assert (exited s1 = false) as Hex1.
  { destruct (exited s1) eqn:E; [|done]. by rewrite acts_exited_mono in Hex. }
  specialize (Hout Hex1). specialize (Herr Hex1). specialize (Hcore Hex1).
  rewrite (acts_queue (settling win) s1),
    (acts_queue (settling win) (acts (concat (polling win)) s0)), Hcore.
  rewrite !lines_of_app, !app_assoc, Hout, Herr. done.
Qed.

Lemma sample_conserves_witness :
  let '(s', outs, errs) :=
    sample (mkWindow [StdoutRead (ReadLine "a")] [[]; [StdoutRead (ReadLine "b")]]
              [StdoutRead (ReadLine "c")]) Sample.running in
  outs ++ lines_of output (output_queue s') = ["a"; "b"; "c"]
  /\ errs ++ lines_of error (output_queue s') = [].
Proof.
  apply (sample_conserves
           (mkWindow [StdoutRead (ReadLine "a")] [[]; [StdoutRead (ReadLine "b")]]
              [StdoutRead (ReadLine "c")]) Sample.running).
  reflexivity.
Defined.

Lemma drain_window_bound ticks s outs errs :
  let '(_, outs', errs') := drain_window ticks s outs errs in
  length outs' + length errs' <= length outs + length errs + length ticks.
Proof.
  revert s outs errs. induction ticks as [|evs ticks IH]; intros s outs errs.
  - simpl. lia.
  - simpl. destruct (output_queue (acts evs s)) as [|[[] msg] q].
    + destruct (exited (acts evs s)); [lia|].
      specialize (IH (acts evs s) outs errs).
      destruct (drain_window ticks _ _ _) as [[? outs'] errs']. lia.
    + specialize (IH (with_output_queue q (acts evs s)) (outs ++ [msg]) errs).
      destruct (drain_window ticks _ _ _) as [[? outs'] errs'].
      rewrite length_app in IH. simpl in IH. lia.
    + specialize (IH (with_output_queue q (acts evs s)) outs (errs ++ [msg])).
      destruct (drain_window ticks _ _ _) as [[? outs'] errs'].
      rewrite length_app in IH. simpl in IH. lia.
Qed.

(** X7: a window captures at most one queue entry per iteration of its
    bounded loop, however many entries are queued. *)
Theorem sample_bounded win s :
  let '(_, outs, errs) := sample win s in
  length outs + length errs <= length (polling win).
Proof.
  unfold sample.
  pose proof (drain_window_bound (polling win) (acts (asleep win) s) [] []) as H.
  destruct (drain_window _ _ _ _) as [[s1 outs] errs]. simpl in *. lia.
Qed.

(** ** The input feeder over several turns *)

Lemma act_closed_stdin a s :
  stdin_closed (process s) = true ->
  stdin_closed (process (act a s)) = true
  /\ stdin_pipe (process (act a s)) = stdin_pipe (process s)
  /\ stdin_buffer (process (act a s)) = stdin_buffer (process s).
Proof.
  destruct s as [id [rc buf pipe cl br ocl ecl sg] inq outq tf wf cf fo eo].
  simpl. intros ->.
  destruct a as [[line|e]|[line|e]| |rc'|]; simpl; try done.
  - destruct ocl; [done|]. unfold output_reader_iter, exited; simpl.
    destruct (bool_decide (line = "")); simpl; [by destruct rc|].
    by destruct (any_keyword_in (Text.lower line)).
  - by destruct ocl.
  - destruct ecl; [done|]. unfold error_reader_iter, exited; simpl.
    destruct (bool_decide (line = "")); simpl; [by destruct rc|done].
  - by destruct ecl.
  - by destruct rc.
Qed.

Lemma acts_closed_stdin evs s :
  stdin_closed (process s) = true ->
  stdin_closed (process (acts evs s)) = true
  /\ stdin_pipe (process (acts evs s)) = stdin_pipe (process s)
  /\ stdin_buffer (process (acts evs s)) = stdin_buffer (process s).
Proof.
  revert s. induction evs as [|a evs IH]; intros s H; [done|].
  rewrite acts_cons. destruct (act_closed_stdin a s H) as (Hc & <- & <-).
  by apply IH.
Qed.

(** X8: once the feeder has closed stdin, nothing that the workers or the
    process do afterwards writes to it again: values queued behind the
    poison pill are never delivered. *)
Theorem closed_stdin_stays evs s :
  stdin_closed (process s) = true ->
  stdin_closed (process (acts evs s)) = true
  /\ stdin_pipe (process (acts evs s)) = stdin_pipe (process s)
  /\ stdin_buffer (process (acts evs s)) = stdin_buffer (process s).
Proof. apply acts_closed_stdin. Qed.

Lemma closed_stdin_stays_witness :
  stdin_pipe
    (process (acts [InputWriterTurn; InputWriterTurn; InputWriterTurn]
                (mkSession "s" new_process [None; Some "late"] [] [] false false "" "")))
  = [].
Proof.
  change (acts [InputWriterTurn; InputWriterTurn; InputWriterTurn] ?s)
    with (acts [InputWriterTurn; InputWriterTurn] (act InputWriterTurn s)).
  destruct (closed_stdin_stays [InputWriterTurn; InputWriterTurn]
              (act InputWriterTurn
                 (mkSession "s" new_process [None; Some "late"] [] [] false false "" "")))
    as (_ & H & _); [reflexivity|].
  exact H.
Defined.

(** X9: while the process runs and its stdin takes writes, the feeder
    delivers the queued values in queue order, each followed by one
    newline and flushed: after as many turns as there are values ahead of
    the rest of the queue, stdin holds them all and nothing is buffered. *)
Theorem input_writer_fifo values rest s :
  exited s = false ->
  stdin_closed (process s) = false ->
  stdin_broken (process s) = false ->
  stdin_buffer (process s) = [] ->
  input_queue s = (Some <$> values) ++ rest ->
  let s' := acts (replicate (length values) InputWriterTurn) s in
  input_queue s' = rest
  /\ stdin_pipe (process s')
     = stdin_pipe (process s) ++ ((fun v => v +:+ Text.newline) <$> values)
  /\ stdin_buffer (process s') = []
  /\ stdin_closed (process s') = false.
Proof.
  revert s. induction values as [|v values IH]; intros s Hex Hopen Hok Hbuf Hq.
  - simpl. by rewrite app_nil_r.
  - destruct s as [id [rc buf pipe cl br ocl ecl sg] inq outq tf wf cf fo eo].
    unfold exited in Hex. simpl in Hex, Hopen, Hok, Hbuf, Hq. subst.
    destruct rc; [done|].
    cbn [length replicate]. rewrite acts_cons.
    match goal with |- context [acts _ ?x] => set (s1 := x) end.
    destruct (IH s1) as (Hq' & Hpipe & Hbuf' & Hopen'); [reflexivity..|].
    cbv zeta. rewrite Hq', Hpipe, Hbuf', Hopen'. subst s1. simpl.
    by rewrite <- app_assoc.
Qed.

Lemma input_writer_fifo_witness :
  stdin_pipe
    (process (acts [InputWriterTurn; InputWriterTurn]
                (mkSession "s" new_process [Some "John"; Some "25"; None] [] []
                   false false "" "")))
  = ["John" +:+ Text.newline; "25" +:+ Text.newline].
Proof.
  destruct (input_writer_fifo ["John"; "25"] [None]
              (mkSession "s" new_process [Some "John"; Some "25"; None] [] []
                 false false "" "")) as (_ & H & _); [reflexivity..|].
  exact H.
Defined.

(** X10: once the process has exited, the feeder ends by itself, pill or
    no pill: after one turn more than there are queued entries it has
    closed stdin, and it has written nothing. *)
Theorem input_writer_stops_after_exit s :
  exited s = true ->
  stdin_closed (process s) = false ->
  let s' := acts (replicate (S (length (input_queue s))) InputWriterTurn) s in
  stdin_closed (process s') = true
  /\ stdin_pipe (process s') = stdin_pipe (process s)
  /\ stdin_buffer (process s') = stdin_buffer (process s).
Proof.
  destruct s as [id [rc buf pipe cl br ocl ecl sg] inq outq tf wf cf fo eo].
  unfold exited. simpl. destruct rc as [rc|]; [intros _ ->|done].
  induction inq as [|[data|] inq IH].
  - done.
  - cbn [length replicate]. rewrite acts_cons. exact IH.
  - cbn [length replicate]. rewrite acts_cons.
    by apply acts_closed_stdin.
Qed.

Lemma input_writer_stops_after_exit_witness :
  stdin_closed
    (process (acts [InputWriterTurn; InputWriterTurn]
                (mkSession "s" (set_returncode 0%Z new_process) [Some "25"] [] []
                   false false "" "")))
  = true.
Proof.
  destruct (input_writer_stops_after_exit
              (mkSession "s" (set_returncode 0%Z new_process) [Some "25"] [] []
                 false false "" "")) as (H & _); [reflexivity..|].
  exact H.
Defined.

(** ** /status and /terminate on a registered session *)

(** X11: a line is delivered once.  After [check_status] has answered
    RUNNING, a second [check_status] with nothing happening in between
    answers RUNNING with empty output and error and the same flag, and
    leaves the world as the first call left it. *)
Theorem check_status_twice IS_WINDOWS id w r s :
  execution_sessions w !! id = Some r ->
  objects w !! r = Some s ->
  exited s = false ->
  let w1 := (check_status IS_WINDOWS [] id w).2 in
  check_status IS_WINDOWS [] id w1
  = ((Running None "" "" (is_waiting_for_input s), 200), w1).
Proof.
  intros Hreg Hobj Hex.
  assert (check_status IS_WINDOWS [] id w
          = ((Running None
                (Text.join Text.newline (lines_of output (output_queue s)))
                (Text.join Text.newline (lines_of error (output_queue s)))
                (is_waiting_for_input s), 200), keep r (core s) w)) as ->.
  { unfold check_status. rewrite Hreg, Hobj. unfold drain_now.
    rewrite drain_queue_spec. simpl. unfold exited in *. simpl. by rewrite Hex. }
  cbn [snd]. unfold check_status. simpl. rewrite Hreg, lookup_insert_eq.
  unfold exited in *. simpl. rewrite Hex. unfold keep. simpl.
  by rewrite insert_insert_eq.
Qed.

Lemma check_status_twice_witness :
  check_status false [] "abc" (check_status false [] "abc" Sample.world_running).2
  = ((Running None "" "" true, 200), (check_status false [] "abc" Sample.world_running).2).
Proof.
  apply (check_status_twice false "abc" Sample.world_running 0 Sample.running);
    reflexivity.
Defined.

(** X12: on a registered session [terminate_session] always answers
    TERMINATED; afterwards the id is unknown, every path of the session's
    [temp_files] is gone, the process has exited and the pill is the last
    entry of the input queue.  A process that had already exited gets no
    signal; a running one gets the terminate request, and SIGKILL only if
    it is still running after the wait. *)
Theorem terminate_session_effect IS_WINDOWS waiting id w r s :
  execution_sessions w !! id = Some r ->
  objects w !! r = Some s ->
  let resp := (terminate_session IS_WINDOWS waiting id w).1 in
  let w' := (terminate_session IS_WINDOWS waiting id w).2 in
  let request := if IS_WINDOWS then TerminateProcess else SIGTERM in
  resp = (Terminated, 200)
  /\ execution_sessions w' !! id = None
  /\ (forall p, p ∈ temp_files s -> files w' !! p = None)
  /\ exists s',
      objects w' !! r = Some s'
      /\ exited s' = true
      /\ last (input_queue s') = Some None
      /\ signals (process s')
         = signals (process s)
           ++ (if exited s then []
               else request
                    :: (if exited (acts waiting (with_process (send_signal request) s))
                        then [] else [SIGKILL])).
Proof.
  intros Hreg Hobj. cbv zeta. unfold terminate_session. rewrite Hreg, Hobj.
  cbn [fst snd]. split; [done|]. split; [apply lookup_delete_eq|].
  set (request := if IS_WINDOWS then TerminateProcess else SIGTERM).
  set (final :=
         if exited s then s
         else let session :=
                if IS_WINDOWS then with_process (send_signal TerminateProcess) s
                else with_process (send_signal SIGTERM) s in
              let session := acts waiting session in
              if exited session then session else with_process kill session).
  assert (temp_files final = temp_files s
          /\ exited final = true
          /\ signals (process final)
             = signals (process s)
               ++ (if exited s then []
                   else request
                        :: (if exited (acts waiting (with_process (send_signal request) s))
                            then [] else [SIGKILL]))) as (Htf & Hex & Hsg).
  { subst final request. destruct (exited s) eqn:Hs.
    { by rewrite app_nil_r. }
    cbv zeta.
    assert ((if IS_WINDOWS then with_process (send_signal TerminateProcess) s
             else with_process (send_signal SIGTERM) s)
            = with_process (send_signal (if IS_WINDOWS then TerminateProcess else SIGTERM)) s)
      as -> by by destruct IS_WINDOWS.
    set (s1 := with_process (send_signal (if IS_WINDOWS then TerminateProcess else SIGTERM)) s).
    destruct (acts_static waiting s1) as (_ & Htf & Hsg).
    destruct (exited (acts waiting s1)) eqn:Hw.
    - by rewrite Htf, Hsg.
    - unfold exited in Hw |- *. simpl. unfold kill.
      destruct (returncode (process (acts waiting s1))) eqn:E; [done|].
      simpl. split; [by rewrite Htf|]. split; [done|].
      rewrite Hsg. subst s1. simpl. by rewrite <- app_assoc. }
  split.
  - intros p Hp. simpl. rewrite Htf. by apply cleanup_listed_gone.
  - exists (inq_put None final). simpl. rewrite lookup_insert_eq.
    repeat split; [done| |done]. unfold put. apply last_snoc.
Qed.

Lemma terminate_session_effect_witness :
  (terminate_session false [] "abc" Sample.world_running).1 = (Terminated, 200)
  /\ exists s',
      objects (terminate_session false [] "abc" Sample.world_running).2 !! 0 = Some s'
      /\ signals (process s') = [SIGTERM; SIGKILL].
Proof.
  destruct (terminate_session_effect false [] "abc" Sample.world_running 0 Sample.running)
    as (Hresp & _ & _ & s' & Hobj & _ & _ & Hsg); [reflexivity..|].
  split; [exact Hresp|]. exists s'. split; [exact Hobj|exact Hsg].
Defined.

(** ** The reaper *)

Section ReaperFacts.
Variable IS_WINDOWS : bool.

Lemma elem_of_sessions_to_remove w id :
  id ∈ sessions_to_remove w
  <-> exists r s, execution_sessions w !! id = Some r
                  /\ objects w !! r = Some s /\ exited s = true.
Proof.
  unfold sessions_to_remove. rewrite list_elem_of_omap. split.
  - intros ([sid r] & Hin & H). apply elem_of_map_to_list in Hin.
    destruct (objects w !! r) as [s|] eqn:Hobj; [|done].
    destruct (exited s) eqn:Hex; [|done]. simplify_eq. eauto.
  - intros (r & s & Hreg & Hobj & Hex). exists (id, r). split.
    + by apply elem_of_map_to_list.
    + by rewrite Hobj, Hex.
Qed.

Lemma reap_objects w sid : objects (reap IS_WINDOWS w sid) = objects w.
Proof. unfold reap. by destruct (lookup_session w sid) as [[r s]|]. Qed.

Lemma reap_registry w sid :
  (forall r, execution_sessions w !! sid = Some r -> is_Some (objects w !! r)) ->
  execution_sessions (reap IS_WINDOWS w sid) = delete sid (execution_sessions w).
Proof.
  intros Hok. unfold reap, lookup_session.
  destruct (execution_sessions w !! sid) as [r|] eqn:Hreg.
  - destruct (Hok r eq_refl) as [s ->]. done.
  - by rewrite delete_id.
Qed.

Lemma foldl_reap_registry ids w id :
  (forall sid r, sid ∈ ids -> execution_sessions w !! sid = Some r ->
                 is_Some (objects w !! r)) ->
  execution_sessions (foldl (reap IS_WINDOWS) w ids) !! id
  = if decide (id ∈ ids) then None else execution_sessions w !! id.
Proof.
  revert w. induction ids as [|sid ids IH]; intros w Hok.
  - cbn [foldl]. rewrite decide_False; [done|apply not_elem_of_nil].
  - cbn [foldl]. rewrite IH.
    + rewrite reap_registry by (intros r; apply Hok; left).
      destruct (decide (id ∈ ids)) as [Hin|Hin].
      * rewrite decide_True; [done|by right].
      * destruct (decide (id = sid)) as [->|Hne].
        -- rewrite decide_True by left. apply lookup_delete_eq.
        -- rewrite decide_False by (intros [?|?]%elem_of_cons; done).
           by apply lookup_delete_ne.
    + intros sid' r Hin. rewrite reap_objects, reap_registry by (intros r'; apply Hok; left).
      intros [_ H]%lookup_delete_Some. apply (Hok sid'); [by right|done].
Qed.

(** X13: one pass of the reaper removes from the registry exactly the ids
    whose process has exited, keeps every other id bound to the same
    session object, and changes no session object. *)
Theorem cleanup_old_sessions_exact w id :
  execution_sessions (cleanup_old_sessions IS_WINDOWS w) !! id
  = match execution_sessions w !! id with
    | Some r => match objects w !! r with
                | Some s => if exited s then None else Some r
                | None => Some r
                end
    | None => None
    end
  /\ objects (cleanup_old_sessions IS_WINDOWS w) = objects w.
Proof.
  split; [|apply cleanup_old_sessions_objects].
  unfold cleanup_old_sessions. rewrite foldl_reap_registry.
  - destruct (decide (id ∈ sessions_to_remove w)) as [Hin|Hin].
    + apply elem_of_sessions_to_remove in Hin as (r & s & -> & -> & ->). done.
    + destruct (execution_sessions w !! id) as [r|] eqn:Hreg; [|done].
      destruct (objects w !! r) as [s|] eqn:Hobj; [|done].
      destruct (exited s) eqn:Hex; [|done].
      destruct Hin. apply elem_of_sessions_to_remove. eauto.
  - intros sid r (r' & s & Hreg & Hobj & _)%elem_of_sessions_to_remove Hreg'.
    simplify_eq. by eexists.
Qed.

Lemma reap_files_none w sid p :
  files w !! p = None -> files (reap IS_WINDOWS w sid) !! p = None.
Proof.
  intros H. unfold reap. destruct (lookup_session w sid) as [[r s]|]; [|done].
  simpl. by apply cleanup_none.
Qed.

Lemma foldl_reap_files_none ids w (ps : list string) :
  (forall p, p ∈ ps -> files w !! p = None) ->
  forall p, p ∈ ps -> files (foldl (reap IS_WINDOWS) w ids) !! p = None.
Proof.
  revert w. induction ids as [|sid ids IH]; intros w H; [done|].
  simpl. apply IH. intros p Hp. by apply reap_files_none, H.
Qed.

Lemma foldl_reap_releases ids w id r s :
  id ∈ ids ->
  lookup_session w id = Some (r, s) ->
  forall p, p ∈ temp_files s -> files (foldl (reap IS_WINDOWS) w ids) !! p = None.
Proof.
  revert w. induction ids as [|sid ids IH]; intros w Hin Hs.
  - by apply elem_of_nil in Hin.
  - simpl. destruct (decide (sid = id)) as [->|Hne].
    + apply foldl_reap_files_none. intros p Hp. unfold reap. rewrite Hs. simpl.
      by apply cleanup_listed_gone.
    + apply IH.
      * apply elem_of_cons in Hin as [->|Hin]; done.
      * unfold reap. destruct (lookup_session w sid) as [[r' s']|]; [|done].
        unfold lookup_session in *. simpl. by rewrite lookup_delete_ne.
Qed.

(** X14: after a pass of the reaper, every path in the [temp_files] of
    every registered session whose process had exited is gone. *)
Theorem cleanup_old_sessions_releases w id r s :
  execution_sessions w !! id = Some r ->
  objects w !! r = Some s ->
  exited s = true ->
  forall p, p ∈ temp_files s ->
            files (cleanup_old_sessions IS_WINDOWS w) !! p = None.
Proof.
  intros Hreg Hobj Hex. unfold cleanup_old_sessions.
  apply (foldl_reap_releases _ _ id r).
  - apply elem_of_sessions_to_remove. eauto.
  - unfold lookup_session. by rewrite Hreg, Hobj.
Qed.

End ReaperFacts.

Lemma cleanup_old_sessions_releases_witness :
  files (cleanup_old_sessions false Sample.world_done) !! "/tmp/x/code.py" = None.
Proof.
  apply (cleanup_old_sessions_releases false Sample.world_done "abc" 0 Sample.done_);
    [reflexivity..|].
  apply list_elem_of_further, list_elem_of_here.
Defined.

(** ** /execute when the process starts *)

Section StartFacts.
Variable IS_WINDOWS : bool.

Lemma with_scratch_dir d names (fs : gmap string bool) :
  Forall (fun n => under IS_WINDOWS d n = true) names ->
  with_scratch d names fs !! d = Some true.
Proof.
  intros Hn. unfold with_scratch. rewrite lookup_new_files; [apply lookup_insert_eq|].
  intros Hin. rewrite Forall_forall in Hn.
  by apply (under_ne IS_WINDOWS d d); [apply Hn|].
Qed.

Lemma with_scratch_outside d names (fs : gmap string bool) p :
  Forall (fun n => under IS_WINDOWS d n = true) names ->
  p <> d -> under IS_WINDOWS d p = false ->
  with_scratch d names fs !! p = fs !! p.
Proof.
  intros Hn Hne Hu. unfold with_scratch.
  rewrite lookup_new_files, lookup_insert_ne; [done..|].
  intros Hin. rewrite Forall_forall in Hn. by rewrite (Hn _ Hin) in Hu.
Qed.

(** What [execute_code] has done when it does not answer with an error:
    a scratch directory with one or two files in it, a new session object
    under the drawn id, and the warm-up window on that session. *)
Lemma execute_code_launched h win data w b code w' :
  execute_code IS_WINDOWS h win data w = ((b, code), w') ->
  (forall e d, b <> Error e d) ->
  exists names,
    Forall (fun n => under IS_WINDOWS (mkdtemp h) n = true) names
    /\ code = 200
    /\ let s0 := new_session (uuid4 h) (mkdtemp h :: names) in
       let r := fresh (dom (objects w)) in
       let w1 := register (uuid4 h) r s0 (with_scratch (mkdtemp h) names (files w)) w in
       let session := (sample win s0).1.1 in
       let out := Text.join Text.newline (sample win s0).1.2 in
       let err := Text.join Text.newline (sample win s0).2 in
       if exited session
       then b = Completed out err
            /\ w' = forget IS_WINDOWS (uuid4 h) r
                      (inq_put None (with_final out err (with_complete true session))) w1
       else (exists wfi, b = Running (Some (uuid4 h)) out err wfi)
            /\ w' = keep r session w1.
Proof.
  unfold execute_code. destruct (negb _); [intros H Hb; simplify_eq; by destruct (Hb _ _ eq_refl)|].
  set (language := Text.lower (default "python" (req_language data))).
  set (code_file := path_join IS_WINDOWS (mkdtemp h) ("code" +:+ get_file_extension language)).
  assert (under IS_WINDOWS (mkdtemp h) code_file = true) as Hcode
    by apply under_path_join.
  destruct (compile_step _ _ _ _ _).1 as [exe|r|e'] eqn:Hc.
  - destruct (Popen_start h _); [intros H Hb; simplify_eq; by destruct (Hb _ _ eq_refl)|].
    intros H _.
    exists (code_file :: option_list exe). split.
    { constructor; [done|]. destruct exe as [exe|]; [|constructor].
      apply compile_step_compiled in Hc as ->. repeat constructor. apply under_path_join. }
    cbv zeta.
    assert ((match exe with
             | Some exe0 => <[exe0:=false]> (<[code_file:=false]> (<[mkdtemp h:=true]> (files w)))
             | None => <[code_file:=false]> (<[mkdtemp h:=true]> (files w))
             end) = with_scratch (mkdtemp h) (code_file :: option_list exe) (files w)) as Hfs
      by by destruct exe.
    rewrite Hfs in H. clear Hfs.
    change ([mkdtemp h; code_file] ++ option_list exe)
      with (mkdtemp h :: code_file :: option_list exe) in H.
    destruct (sample win _) as [[session io] ie]. simpl.
    destruct (exited session); simplify_eq; eauto.
  - apply compile_step_return in Hc as (e & d & ->). intros H Hb; simplify_eq. by destruct (Hb _ _ eq_refl).
  - intros H Hb; simplify_eq. by destruct (Hb _ _ eq_refl).
Qed.

(** X15: a start request answered COMPLETED leaves no session behind: if
    the drawn id was free, the registry is as before, every session object
    that existed is untouched, and of the files only the scratch directory
    and what lies below it are missing; all other paths are as before. *)
Theorem execute_code_completed_clean h win data w out err code w' :
  execute_code IS_WINDOWS h win data w = ((Completed out err, code), w') ->
  execution_sessions w !! uuid4 h = None ->
  code = 200
  /\ execution_sessions w' = execution_sessions w
  /\ (forall r, is_Some (objects w !! r) -> objects w' !! r = objects w !! r)
  /\ (forall p,
        files w' !! p
        = if decide (p = mkdtemp h) then None
          else if under IS_WINDOWS (mkdtemp h) p then None else files w !! p).
Proof.
  intros H Hfree.
  apply execute_code_launched in H as (names & Hn & -> & H); [|done].
  cbv zeta in H.
  pose proof (sample_static win (new_session (uuid4 h) (mkdtemp h :: names))) as Hst.
  destruct (sample win _) as [[session io] ie]. simpl in *.
  destruct Hst as (_ & Htf & _).
  destruct (exited session); [|by destruct H as [[wfi ?] _]].
  destruct H as [_ ->]. split; [done|]. simpl. split; [|split].
  - by rewrite delete_insert_eq, delete_id.
  - intros r Hr.
    assert (r <> fresh (dom (objects w))) as Hne.
    { intros ->. apply elem_of_dom in Hr. by apply is_fresh in Hr. }
    by rewrite !lookup_insert_ne.
  - intros p. rewrite Htf. by apply released_files.
Qed.

(** X16: a start request answered RUNNING has registered the drawn id with
    a new session object that carries that id and a running process; every
    other id and every session object that existed are as before; the
    scratch directory exists, and outside it the files are as before. *)
Theorem execute_code_running_registers h win data w sid out err wfi code w' :
  execute_code IS_WINDOWS h win data w = ((Running sid out err wfi, code), w') ->
  sid = Some (uuid4 h)
  /\ (exists r s,
        objects w !! r = None
        /\ lookup_session w' (uuid4 h) = Some (r, s)
        /\ session_id s = uuid4 h
        /\ exited s = false
        /\ hd_error (temp_files s) = Some (mkdtemp h))
  /\ (forall id, id <> uuid4 h -> execution_sessions w' !! id = execution_sessions w !! id)
  /\ (forall r, is_Some (objects w !! r) -> objects w' !! r = objects w !! r)
  /\ files w' !! mkdtemp h = Some true
  /\ (forall p, p <> mkdtemp h -> under IS_WINDOWS (mkdtemp h) p = false ->
                files w' !! p = files w !! p).
Proof.
  intros H.
  apply execute_code_launched in H as (names & Hn & _ & H); [|done].
  cbv zeta in H.
  pose proof (sample_static win (new_session (uuid4 h) (mkdtemp h :: names))) as Hst.
  destruct (sample win _) as [[session io] ie]. simpl in *.
  destruct Hst as (Hid & Htf & _).
  destruct (exited session) eqn:Hex; [by destruct H as [? _]|].
  destruct H as [[wfi' ?] ->]. simplify_eq. split; [done|].
  assert (objects w !! fresh (dom (objects w)) = None) as Hfresh.
  { apply not_elem_of_dom, is_fresh. }
  split; [|split; [|split; [|split]]]; simpl.
  - exists (fresh (dom (objects w))), session. split; [done|].
    unfold lookup_session. simpl. rewrite !lookup_insert_eq.
    by rewrite Htf.
  - intros id Hne. by rewrite lookup_insert_ne.
  - intros r [s Hr].
    assert (r <> fresh (dom (objects w))) as Hne by (intros ->; congruence).
    by rewrite !lookup_insert_ne.
  - by apply with_scratch_dir.
  - intros p Hne Hu. by apply with_scratch_outside.
Qed.

End StartFacts.

Lemma execute_code_completed_clean_witness :
  let w' := (execute_code false (Sample.host (fun _ _ => RunFileNotFound) None)
               (mkWindow [StdoutRead (ReadLine "Hello, World!"); ProcessExit 0] [[]; []] [])
               Sample.python_program Sample.world_running).2 in
  execution_sessions w' = execution_sessions Sample.world_running
  /\ files w' !! "/tmp/z" = None
  /\ files w' !! "/tmp/keep" = Some false.
Proof.
  intros w'.
  destruct (execute_code_completed_clean false (Sample.host (fun _ _ => RunFileNotFound) None)
              (mkWindow [StdoutRead (ReadLine "Hello, World!"); ProcessExit 0] [[]; []] [])
              Sample.python_program Sample.world_running "Hello, World!" "" 200 w')
    as (_ & Hreg & _ & Hfiles).
  - apply pair_with_snd. vm_compute. reflexivity.
  - reflexivity.
  - split; [exact Hreg|]. split.
    + rewrite (Hfiles "/tmp/z"). vm_compute. reflexivity.
    + rewrite (Hfiles "/tmp/keep"). vm_compute. reflexivity.
Defined.

Lemma execute_code_running_registers_witness :
  exists r s,
    objects Sample.world_running !! r = None
    /\ lookup_session
         (execute_code false (Sample.host (fun _ _ => RunFileNotFound) None)
            Sample.quiet Sample.python_program Sample.world_running).2 "u1" = Some (r, s)
    /\ session_id s = "u1"
    /\ exited s = false
    /\ hd_error (temp_files s) = Some "/tmp/z".
Proof.
  destruct (execute_code_running_registers false
              (Sample.host (fun _ _ => RunFileNotFound) None)
              Sample.quiet Sample.python_program Sample.world_running
              (Some "u1") "" "" true 200
              (execute_code false (Sample.host (fun _ _ => RunFileNotFound) None)
                 Sample.quiet Sample.python_program Sample.world_running).2)
    as (_ & H & _).
  - apply pair_with_snd. vm_compute. reflexivity.
  - exact H.
Defined.

(** ** Requests about a registered session *)

Section KnownSession.
Variable IS_WINDOWS : bool.

Lemma provide_input_settled win data w r s :
  execution_sessions w !! default "" (req_session_id data) = Some r ->
  objects w !! r = Some s ->
  settled IS_WINDOWS (default "" (req_session_id data)) r s w
    (provide_input IS_WINDOWS win data w).1 (provide_input IS_WINDOWS win data w).2.
Proof.
  intros Hreg Hobj. unfold provide_input, settled. rewrite Hreg, Hobj.
  destruct (exited s); [exists s; split; [done|left; by repeat split]|].
  pose proof (sample_static win
                (with_waiting false (inq_put (Some (default "" (req_input data))) s)))
    as (_ & Htf & _).
  destruct (sample win _) as [[session output_lines] error_lines]. simpl in Htf.
  destruct (exited session) eqn:Hex.
  - destruct (drain_now _ _ _) as [[s1 ol] el] eqn:Hd.
    unfold drain_now in Hd. destruct (drain_queue _ _ _). simplify_eq.
    eexists. split; [|left; by repeat split]. done.
  - eexists. split; [|right; split; [by eauto|split; [|done]]].
    + by destruct (last output_lines) as [line|];
        [destruct (any_keyword_in (Text.lower line))|].
    + by destruct (last output_lines) as [line|];
        [destruct (any_keyword_in (Text.lower line))|].
Qed.

Lemma check_status_settled settle id w r s :
  execution_sessions w !! id = Some r ->
  objects w !! r = Some s ->
  settled IS_WINDOWS id r s w
    (check_status IS_WINDOWS settle id w).1 (check_status IS_WINDOWS settle id w).2.
Proof.
  intros Hreg Hobj. unfold check_status, settled. rewrite Hreg, Hobj.
  unfold drain_now. destruct (drain_queue _ _ _) as [ol el].
  destruct (acts_static settle (with_output_queue [] s)) as (_ & Htf & _).
  destruct (exited (acts settle (with_output_queue [] s))) eqn:Hex.
  - eexists. split; [|left; by repeat split]. done.
  - eexists. split; [|right; split; [by eauto|by split]]. done.
Qed.

Lemma terminate_session_settled waiting id w r s :
  execution_sessions w !! id = Some r ->
  objects w !! r = Some s ->
  settled IS_WINDOWS id r s w
    (terminate_session IS_WINDOWS waiting id w).1
    (terminate_session IS_WINDOWS waiting id w).2.
Proof.
  intros Hreg Hobj. unfold terminate_session, settled. rewrite Hreg, Hobj.
  eexists. split; [|left; by repeat split].
  cbn [temp_files inq_put with_input_queue].
  destruct (exited s); [done|].
  assert (forall sg, temp_files (acts waiting (with_process (send_signal sg) s))
                     = temp_files s) as Htf.
  { intros sg. by destruct (acts_static waiting (with_process (send_signal sg) s))
      as (_ & -> & _). }
  cbv zeta. destruct IS_WINDOWS;
    match goal with |- context [exited ?x] => destruct (exited x) end;
    cbn [temp_files with_process]; apply Htf.
Qed.

Lemma settled_frame id r s w resp w' :
  settled IS_WINDOWS id r s w resp w' ->
  (forall id', id' <> id -> execution_sessions w' !! id' = execution_sessions w !! id')
  /\ (forall r', r' <> r -> objects w' !! r' = objects w !! r')
  /\ (forall p b, files w' !! p = Some b -> files w !! p = Some b)
  /\ (forall p, p ∉ temp_files s ->
                Forall (fun d => under IS_WINDOWS d p = false) (temp_files s) ->
                files w' !! p = files w !! p).
Proof.
  intros (s' & Htf & [(_ & _ & ->)|(_ & _ & ->)]); simpl.
  - split; [by intros; apply lookup_delete_ne|].
    split; [by intros; apply lookup_insert_ne|]. rewrite Htf. split.
    + intros p b. apply cleanup_lookup.
    + intros p Hp Hu. by apply cleanup_outside.
  - split; [done|]. split; [by intros; apply lookup_insert_ne|]. done.
Qed.

(** X17: an input, status or terminate request about a registered session
    touches nothing but that session: every other id stays bound as it was,
    every other session object is unchanged, no file is created, and a
    path that is neither in the session's [temp_files] nor below one of
    them is as before. *)
Theorem known_session_frame q w id r s :
  match q with Input _ _ | Status _ _ | Terminate _ _ => True | _ => False end ->
  subject q = Some id ->
  execution_sessions w !! id = Some r ->
  objects w !! r = Some s ->
  let w' := (serve IS_WINDOWS q w).2 in
  (forall id', id' <> id -> execution_sessions w' !! id' = execution_sessions w !! id')
  /\ (forall r', r' <> r -> objects w' !! r' = objects w !! r')
  /\ (forall p b, files w' !! p = Some b -> files w !! p = Some b)
  /\ (forall p, p ∉ temp_files s ->
                Forall (fun d => under IS_WINDOWS d p = false) (temp_files s) ->
                files w' !! p = files w !! p).
Proof.
  intros Hq Hid Hreg Hobj.
  destruct q as [h win data|win data|settle sid|waiting sid| |r0 evs]; try done;
    simpl in Hid; simplify_eq; simpl.
  - pose proof (provide_input_settled win data w r s Hreg Hobj) as H.
    destruct (provide_input IS_WINDOWS win data w) as [resp w']. by eapply settled_frame.
  - pose proof (check_status_settled settle id w r s Hreg Hobj) as H.
    destruct (check_status IS_WINDOWS settle id w) as [resp w']. by eapply settled_frame.
  - pose proof (terminate_session_settled waiting id w r s Hreg Hobj) as H.
    destruct (terminate_session IS_WINDOWS waiting id w) as [resp w'].
    by eapply settled_frame.
Qed.

(** X18: every input, status or terminate request that is answered
    COMPLETED or TERMINATED has removed every path of the session's
    [temp_files]. *)
Theorem final_answer_releases q w id r s :
  match q with Input _ _ | Status _ _ | Terminate _ _ => True | _ => False end ->
  subject q = Some id ->
  execution_sessions w !! id = Some r ->
  objects w !! r = Some s ->
  final_status (serve IS_WINDOWS q w).1 ->
  forall p, p ∈ temp_files s -> files (serve IS_WINDOWS q w).2 !! p = None.
Proof.
  intros Hq Hid Hreg Hobj.
  assert (forall resp w', settled IS_WINDOWS id r s w resp w' -> final_status (Some resp) ->
            forall p, p ∈ temp_files s -> files w' !! p = None) as Hrel.
  { intros resp w' (s' & Htf & [(_ & _ & ->)|([out [err [wfi ->]]] & _)]); [|done].
    intros _ p Hp. simpl. rewrite Htf. by apply cleanup_listed_gone. }
  destruct q as [h win data|win data|settle sid|waiting sid| |r0 evs]; try done;
    simpl in Hid; simplify_eq; simpl.
  - pose proof (provide_input_settled win data w r s Hreg Hobj) as H.
    destruct (provide_input IS_WINDOWS win data w) as [resp w']. by eapply Hrel.
  - pose proof (check_status_settled settle id w r s Hreg Hobj) as H.
    destruct (check_status IS_WINDOWS settle id w) as [resp w']. by eapply Hrel.
  - pose proof (terminate_session_settled waiting id w r s Hreg Hobj) as H.
    destruct (terminate_session IS_WINDOWS waiting id w) as [resp w']. by eapply Hrel.
Qed.

End KnownSession.

Lemma known_session_frame_witness :
  execution_sessions (serve false (Status [ProcessExit 0] "abc") Sample.world_running).2
    !! "other"
  = execution_sessions Sample.world_running !! "other"
  /\ files (serve false (Status [ProcessExit 0] "abc") Sample.world_running).2 !! "/tmp/keep"
     = files Sample.world_running !! "/tmp/keep".
Proof.
  destruct (known_session_frame false (Status [ProcessExit 0] "abc") Sample.world_running
              "abc" 0 Sample.running) as (Hreg & _ & _ & Hfiles);
    [exact I|reflexivity..|].
  split; [by apply Hreg|]. apply Hfiles.
  - intros [H|[H|H%elem_of_nil]%elem_of_cons]%elem_of_cons; [discriminate H..|done].
  - by repeat constructor.
Defined.

Lemma final_answer_releases_witness :
  files (serve false (Terminate [] "abc") Sample.world_running).2 !! "/tmp/x" = None.
Proof.
  apply (final_answer_releases false (Terminate [] "abc") Sample.world_running
           "abc" 0 Sample.running); [exact I|reflexivity..|exact I|].
  apply list_elem_of_here.
Defined.

Section Answers.
Variable IS_WINDOWS : bool.

(** X19: in a world where every registered id has its object, an input,
    status or terminate request is answered "Invalid session ID" (status
    400, nothing changed) when the id is not registered, and otherwise with
    status 200 and COMPLETED, TERMINATED or RUNNING: a known session never
    yields an error. *)
Theorem known_session_answers q w id :
  registry_ok w ->
  match q with Input _ _ | Status _ _ | Terminate _ _ => True | _ => False end ->
  subject q = Some id ->
  (execution_sessions w !! id = None -> serve IS_WINDOWS q w = (Some invalid_session, w))
  /\ (is_Some (execution_sessions w !! id) ->
      exists resp, (serve IS_WINDOWS q w).1 = Some resp
                   /\ resp.2 = 200
                   /\ (final_status (Some resp)
                       \/ exists out err wfi, resp = (Running None out err wfi, 200))).
Proof.
  intros Hok Hq Hid.
  assert (forall r s resp w',
            settled IS_WINDOWS id r s w resp w' ->
            resp.2 = 200
            /\ (final_status (Some resp)
                \/ exists out err wfi, resp = (Running None out err wfi, 200))) as Hset.
  { intros r s resp w' (s' & _ & [(Hf & Hc & _)|([out [err [wfi ->]]] & _)]); eauto 10. }
  destruct q as [h win data|win data|settle sid|waiting sid| |r0 evs]; try done;
    simpl in Hid; simplify_eq; simpl; split.
  - intros Hno. unfold provide_input. by rewrite Hno.
  - intros [r Hreg]. destruct (Hok _ _ Hreg) as [s Hobj].
    pose proof (provide_input_settled IS_WINDOWS win data w r s Hreg Hobj) as H.
    destruct (provide_input IS_WINDOWS win data w) as [resp w']. eauto.
  - intros Hno. unfold check_status. by rewrite Hno.
  - intros [r Hreg]. destruct (Hok _ _ Hreg) as [s Hobj].
    pose proof (check_status_settled IS_WINDOWS settle id w r s Hreg Hobj) as H.
    destruct (check_status IS_WINDOWS settle id w) as [resp w']. eauto.
  - intros Hno. unfold terminate_session. by rewrite Hno.
  - intros [r Hreg]. destruct (Hok _ _ Hreg) as [s Hobj].
    pose proof (terminate_session_settled IS_WINDOWS waiting id w r s Hreg Hobj) as H.
    destruct (terminate_session IS_WINDOWS waiting id w) as [resp w']. eauto.
Qed.

End Answers.

Lemma sample_registry_ok : registry_ok Sample.world_running.
Proof.
  intros id r H. destruct (decide (id = "abc")) as [->|Hne].
  - assert (r = 0) as -> by (vm_compute in H; congruence). by eexists.
  - unfold Sample.world_running in H. simpl in H.
    rewrite lookup_singleton_ne in H; done.
Qed.

Lemma known_session_answers_witness :
  serve false (Status [] "nobody") Sample.world_running
  = (Some invalid_session, Sample.world_running)
  /\ exists resp,
      (serve false (Status [] "abc") Sample.world_running).1 = Some resp /\ resp.2 = 200.
Proof.
  split.
  - apply (known_session_answers false (Status [] "nobody") Sample.world_running "nobody");
      [apply sample_registry_ok|exact I|reflexivity|reflexivity].
  - destruct (known_session_answers false (Status [] "abc") Sample.world_running "abc")
      as [_ H]; [apply sample_registry_ok|exact I|reflexivity|].
    destruct H as (resp & Hresp & Hcode & _); [by eexists|]. eauto.
Defined.

(** ** Start, then finish *)

(** X20: a session started with a RUNNING answer and then finished by the
    next input, status or terminate request (answered COMPLETED or
    TERMINATED) leaves the drawn id unregistered and the files as they were
    before the start, except that nothing remains at or below the scratch
    directory. *)
Theorem start_then_finish IS_WINDOWS h win data w sid out err wfi code w1 q :
  execute_code IS_WINDOWS h win data w = ((Running sid out err wfi, code), w1) ->
  match q with Input _ _ | Status _ _ | Terminate _ _ => True | _ => False end ->
  subject q = Some (uuid4 h) ->
  final_status (serve IS_WINDOWS q w1).1 ->
  let w2 := (serve IS_WINDOWS q w1).2 in
  execution_sessions w2 !! uuid4 h = None
  /\ (forall id, id <> uuid4 h -> execution_sessions w2 !! id = execution_sessions w !! id)
  /\ (forall p,
        files w2 !! p
        = if decide (p = mkdtemp h) then None
          else if under IS_WINDOWS (mkdtemp h) p then None else files w !! p).
Proof.
  intros H Hq Hid Hfin.
  apply execute_code_launched in H as (names & Hn & _ & H); [|done].
  cbv zeta in H.
  pose proof (sample_static win (new_session (uuid4 h) (mkdtemp h :: names))) as Hst.
  destruct (sample win _) as [[session io] ie]. simpl in *.
  destruct Hst as (_ & Htf & _).
  destruct (exited session) eqn:Hex; [by destruct H as [? _]|].
  destruct H as [_ ->].
  set (r := fresh (dom (objects w))) in *.
  set (w1 := keep r session _) in *.
  assert (execution_sessions w1 !! uuid4 h = Some r) as Hreg by apply lookup_insert_eq.
  assert (objects w1 !! r = Some session) as Hobj by apply lookup_insert_eq.
  assert (forall resp w2, settled IS_WINDOWS (uuid4 h) r session w1 resp w2 ->
            final_status (Some resp) ->
            execution_sessions w2 !! uuid4 h = None
            /\ (forall id, id <> uuid4 h ->
                  execution_sessions w2 !! id = execution_sessions w !! id)
            /\ (forall p,
                  files w2 !! p
                  = if decide (p = mkdtemp h) then None
                    else if under IS_WINDOWS (mkdtemp h) p then None
                         else files w !! p)) as Hset.
  { intros resp w2 (s' & Htf' & [(_ & _ & ->)|([o [e [f ->]]] & _)]); [|done].
    intros _. simpl. split; [apply lookup_delete_eq|]. split.
    - intros id Hne. by rewrite lookup_delete_ne, lookup_insert_ne.
    - intros p. rewrite Htf', Htf. by apply released_files. }
  destruct q as [h' win' data'|win' data'|settle sid'|waiting sid'| |r0 evs]; try done;
    simpl in Hid; simplify_eq; simpl in *.
  - assert (execution_sessions w1 !! default "" (req_session_id data') = Some r) as Hreg'
      by by rewrite Hid.
    pose proof (provide_input_settled IS_WINDOWS win' data' w1 r session Hreg' Hobj) as Hs.
    rewrite Hid in Hs.
    destruct (provide_input IS_WINDOWS win' data' w1) as [resp w2]. by apply (Hset resp).
  - pose proof (check_status_settled IS_WINDOWS settle (uuid4 h) w1 r session Hreg Hobj) as Hs.
    destruct (check_status IS_WINDOWS settle (uuid4 h) w1) as [resp w2]. by apply (Hset resp).
  - pose proof (terminate_session_settled IS_WINDOWS waiting (uuid4 h) w1 r session Hreg Hobj)
      as Hs.
    destruct (terminate_session IS_WINDOWS waiting (uuid4 h) w1) as [resp w2].
    by apply (Hset resp).
Qed.

Lemma start_then_finish_witness :
  let w1 := (execute_code false (Sample.host (fun _ _ => RunFileNotFound) None)
               Sample.quiet Sample.python_program Sample.world_running).2 in
  let w2 := (serve false (Terminate [] "u1") w1).2 in
  execution_sessions w2 !! "u1" = None
  /\ files w2 !! "/tmp/z/code.py" = None
  /\ files w2 !! "/tmp/keep" = Some false.
Proof.
  intros w1 w2.
  destruct (start_then_finish false (Sample.host (fun _ _ => RunFileNotFound) None)
              Sample.quiet Sample.python_program Sample.world_running
              (Some "u1") "" "" true 200 w1 (Terminate [] "u1"))
    as (Hgone & _ & Hfiles).
  - apply pair_with_snd. vm_compute. reflexivity.
  - exact I.
  - reflexivity.
  - vm_compute. exact I.
  - subst w2. split; [exact Hgone|]. split.
    + rewrite (Hfiles "/tmp/z/code.py"). vm_compute. reflexivity.
    + rewrite (Hfiles "/tmp/keep"). vm_compute. reflexivity.
Defined.

(** ** The language of a start request *)

Lemma lower_char_idemp c : Text.lower_char (Text.lower_char c) = Text.lower_char c.
Proof. by destruct c as [[] [] [] [] [] [] [] []]. Qed.

Lemma lower_idemp s : Text.lower (Text.lower s) = Text.lower s.
Proof. induction s as [|c s IH]; [done|]. simpl. by rewrite lower_char_idemp, IH. Qed.

(** X21: the language id of a start request is matched without regard to
    case, and a request without a language is a python request: the
    handler does the same for a language as for its lowercase form. *)
Theorem execute_code_language_case IS_WINDOWS h win code language w :
  execute_code IS_WINDOWS h win {| req_code := code; req_language := Some language |} w
  = execute_code IS_WINDOWS h win
      {| req_code := code; req_language := Some (Text.lower language) |} w
  /\ execute_code IS_WINDOWS h win {| req_code := code; req_language := None |} w
     = execute_code IS_WINDOWS h win
         {| req_code := code; req_language := Some "PYTHON" |} w.
Proof.
  split; [|reflexivity]. unfold execute_code. simpl. by rewrite lower_idemp.
Qed.

(** X22: a start request is answered "Unsupported language", with status
    400, exactly when its lowercased language is none of python, c and
    cpp; nothing is allocated then: the world is unchanged. *)
Theorem execute_code_unsupported IS_WINDOWS h win data w :
  ((execute_code IS_WINDOWS h win data w).1 = (Error "Unsupported language" None, 400)
   <-> supported data = false)
  /\ (supported data = false -> (execute_code IS_WINDOWS h win data w).2 = w).
Proof.
  unfold execute_code, supported.
  destruct (bool_decide _); simpl; [|done].
  split; [|done]. split; [|done].
  destruct (compile_step _ _ _ _ _).1 as [exe|r|e] eqn:Hc; simpl.
  - destruct (Popen_start h _); simpl; [done|].
    destruct (sample win _) as [[session io] ie]. by destruct (exited session).
  - revert Hc. unfold compile_step, check_returncode, compiler_not_found.
    repeat case_match; intros; simplify_eq.
  - done.
Qed.

Lemma execute_code_unsupported_witness :
  (execute_code false (Sample.host (fun _ _ => RunFileNotFound) None) Sample.quiet
     {| req_code := Some "puts 1"; req_language := Some "Ruby" |} Sample.world_running).2
  = Sample.world_running.
Proof.
  destruct (execute_code_unsupported false (Sample.host (fun _ _ => RunFileNotFound) None)
              Sample.quiet {| req_code := Some "puts 1"; req_language := Some "Ruby" |}
              Sample.world_running) as [_ H].
  apply H. reflexivity.
Defined.

(** ** The client's input loop *)

Section Client.
Variable IS_WINDOWS : bool.

Lemma provide_input_known win data w r s :
  execution_sessions w !! default "" (req_session_id data) = Some r ->
  objects w !! r = Some s ->
  (exists out err, (provide_input IS_WINDOWS win data w).1 = (Completed out err, 200))
  \/ (exists out err wfi,
        (provide_input IS_WINDOWS win data w).1 = (Running None out err wfi, 200)
        /\ execution_sessions (provide_input IS_WINDOWS win data w).2
           = execution_sessions w).
Proof.
  intros Hreg Hobj. unfold provide_input. rewrite Hreg, Hobj.
  destruct (exited s); [left; by eauto|].
  destruct (sample win _) as [[session output_lines] error_lines].
  destruct (exited session).
  - destruct (drain_now _ _ _) as [[? ?] ?]. left; by eauto.
  - right. by eauto.
Qed.

(** Once the id is unknown, every remaining post is answered
    "Invalid session ID"; the loop does not stop on that answer. *)
Lemma post_inputs_unknown session_id inputs w :
  Forall (fun rd => Forall (fun q => ~ redraws session_id q) (round_idle rd)) inputs ->
  execution_sessions w !! session_id = None ->
  (post_inputs IS_WINDOWS session_id inputs w).1
  = replicate (length inputs) invalid_session.
Proof.
  intros Hin. revert w. induction Hin as [|rd rest Hrd _ IH]; intros w Hno; [done|].
  cbn [post_inputs length replicate].
  set (w0 := serve_all IS_WINDOWS (round_idle rd) w).
  assert (execution_sessions w0 !! session_id = None) as Hno0
    by by apply serve_all_unknown.
  assert (provide_input IS_WINDOWS (round_window rd)
            {| req_session_id := Some session_id; req_input := Some (round_input rd) |} w0
          = (invalid_session, w0)) as ->.
  { unfold provide_input. simpl. by rewrite Hno0. }
  simpl. specialize (IH w0 Hno0).
  destruct (post_inputs IS_WINDOWS session_id rest w0) as [results w2].
  simpl in *. by rewrite IH.
Qed.

Lemma serve_all_background qs w :
  Forall is_background qs ->
  execution_sessions (serve_all IS_WINDOWS qs w) = execution_sessions w.
Proof.
  intros Hqs. revert w. induction Hqs as [|q qs Hq _ IH]; intros w; [done|].
  unfold serve_all in *. simpl. rewrite IH. by destruct q.
Qed.

Lemma post_inputs_shape session_id inputs w :
  registry_ok w ->
  Forall (fun rd => Forall (fun q => ~ redraws session_id q) (round_idle rd)) inputs ->
  exists runs rest,
    (post_inputs IS_WINDOWS session_id inputs w).1 = runs ++ rest
    /\ Forall (fun resp => exists out err wfi, resp = (Running None out err wfi, 200)) runs
    /\ ((rest = [] /\ length runs = length inputs)
        \/ ((exists out err, rest = [(Completed out err, 200)])
            /\ length runs < length inputs)
        \/ (rest = replicate (length inputs - length runs) invalid_session
            /\ length runs < length inputs)).
Proof.
  intros Hok Hin. revert w Hok.
  induction Hin as [|rd rest Hrd Hrest IH]; intros w Hok.
  - exists [], []. repeat split; [constructor|by left].
  - destruct (execution_sessions (serve_all IS_WINDOWS (round_idle rd) w) !! session_id)
      as [r|] eqn:Hreg0.
    + cbn [post_inputs].
      set (w0 := serve_all IS_WINDOWS (round_idle rd) w) in *.
      assert (registry_ok w0) as Hok0 by by apply serve_all_registry_ok.
      destruct (Hok0 _ _ Hreg0) as [s Hobj0].
      set (data := {| req_session_id := Some session_id;
                      req_input := Some (round_input rd) |}).
      pose proof (provide_input_known (round_window rd) data w0 r s Hreg0 Hobj0) as Hans.
      pose proof (provide_input_registry_ok IS_WINDOWS (round_window rd) data w0 Hok0)
        as Hok1.
      destruct (provide_input IS_WINDOWS (round_window rd) data w0) as [result w1].
      simpl in Hans, Hok1.
      destruct Hans as [(out & err & ->)|(out & err & wfi & -> & Hreg1)].
      * simpl. exists [], [(Completed out err, 200)].
        split; [done|]. split; [constructor|]. right. left.
        split; [by eauto|]. simpl. lia.
      * simpl. destruct (IH w1 Hok1) as (runs & fin & Hres & Hruns & Hfin).
        destruct (post_inputs IS_WINDOWS session_id rest w1) as [results w2].
        simpl in Hres. subst results.
        exists ((Running None out err wfi, 200) :: runs), fin.
        split; [done|]. split; [constructor; by eauto|].
        destruct Hfin as [[-> Hlen]|[[Hfin Hlen]|[Hfin Hlen]]].
        -- left. simpl. by rewrite Hlen.
        -- right. left. split; [done|]. simpl. lia.
        -- right. right. split; [done|]. simpl. lia.
    + exists [], (replicate (length (rd :: rest)) invalid_session).
      split.
      * assert (Forall (fun rd => Forall (fun q => ~ redraws session_id q) (round_idle rd))
                  (rd :: rest)) as Hall by by constructor.
        destruct (execution_sessions w !! session_id) as [r|] eqn:Hw.
        -- (* registered before the sleep, finalized during it *)
           cbn [post_inputs length replicate].
           set (w0 := serve_all IS_WINDOWS (round_idle rd) w) in *.
           assert (provide_input IS_WINDOWS (round_window rd)
                     {| req_session_id := Some session_id;
                        req_input := Some (round_input rd) |} w0
                   = (invalid_session, w0)) as ->.
           { unfold provide_input. simpl. by rewrite Hreg0. }
           simpl.
           pose proof (post_inputs_unknown session_id rest w0 Hrest Hreg0) as Hrest'.
           destruct (post_inputs IS_WINDOWS session_id rest w0) as [results w2].
           simpl in *. by rewrite Hrest'.
        -- by apply post_inputs_unknown.
      * split; [constructor|]. right. right. split; [done|]. simpl. lia.
Qed.

Lemma post_inputs_undisturbed session_id inputs w :
  registry_ok w ->
  is_Some (execution_sessions w !! session_id) ->
  Forall (fun rd => Forall is_background (round_idle rd)) inputs ->
  Forall (fun resp => resp.2 = 200) (post_inputs IS_WINDOWS session_id inputs w).1.
Proof.
  intros Hok Hreg Hin. revert w Hok Hreg.
  induction Hin as [|rd rest Hrd _ IH]; intros w Hok Hreg; [constructor|].
  cbn [post_inputs].
  set (w0 := serve_all IS_WINDOWS (round_idle rd) w).
  assert (registry_ok w0) as Hok0 by by apply serve_all_registry_ok.
  assert (is_Some (execution_sessions w0 !! session_id)) as [r Hreg0].
  { subst w0. by rewrite serve_all_background. }
  destruct (Hok0 _ _ Hreg0) as [s Hobj0].
  set (data := {| req_session_id := Some session_id; req_input := Some (round_input rd) |}).
  pose proof (provide_input_known (round_window rd) data w0 r s Hreg0 Hobj0) as Hans.
  pose proof (provide_input_registry_ok IS_WINDOWS (round_window rd) data w0 Hok0) as Hok1.
  destruct (provide_input IS_WINDOWS (round_window rd) data w0) as [result w1].
  simpl in Hans, Hok1.
  destruct Hans as [(out & err & ->)|(out & err & wfi & -> & Hreg1)].
  - simpl. by repeat constructor.
  - simpl. specialize (IH w1 Hok1). rewrite Hreg1 in IH. specialize (IH (ex_intro _ r Hreg0)).
    destruct (post_inputs IS_WINDOWS session_id rest w1) as [results w2].
    simpl in *. by constructor.
Qed.

(** X23: the input loop of the client stops at the first COMPLETED answer
    and at nothing else.  Whatever reaches the server between two posts
    (worker activity, reaper passes, other requests, none of them a start
    that draws the id again), the answers are a run of RUNNING answers,
    followed by nothing when all inputs were posted, or by one COMPLETED
    answer at which the loop stopped, or by "Invalid session ID" for every
    remaining input: once the session has been finalized between two
    posts, the client goes on posting to it.  If only the workers are
    active between the posts to a registered session, every answer has
    status 200. *)
Theorem post_inputs_answers session_id inputs w :
  registry_ok w ->
  Forall (fun rd => Forall (fun q => ~ redraws session_id q) (round_idle rd)) inputs ->
  (exists runs rest,
      (post_inputs IS_WINDOWS session_id inputs w).1 = runs ++ rest
      /\ Forall (fun resp => exists out err wfi, resp = (Running None out err wfi, 200)) runs
      /\ ((rest = [] /\ length runs = length inputs)
          \/ ((exists out err, rest = [(Completed out err, 200)])
              /\ length runs < length inputs)
          \/ (rest = replicate (length inputs - length runs) invalid_session
              /\ length runs < length inputs)))
  /\ (is_Some (execution_sessions w !! session_id) ->
      Forall (fun rd => Forall is_background (round_idle rd)) inputs ->
      Forall (fun resp => resp.2 = 200) (post_inputs IS_WINDOWS session_id inputs w).1).
Proof.
  intros Hok Hin. split.
  - by apply post_inputs_shape.
  - by apply post_inputs_undisturbed.
Qed.

End Client.

Lemma post_inputs_answers_witness :
  exists runs rest,
    (post_inputs false "abc"
       [mkRound [] "Bob" Sample.quiet;
        mkRound [Background 0 [ProcessExit 0]; Reap] "30" Sample.quiet;
        mkRound [] "31" Sample.quiet] Sample.world_running).1
    = runs ++ rest
    /\ Forall (fun resp => exists out err wfi, resp = (Running None out err wfi, 200)) runs
    /\ ((rest = [] /\ length runs = 3)
        \/ ((exists out err, rest = [(Completed out err, 200)]) /\ length runs < 3)
        \/ (rest = replicate (3 - length runs) invalid_session /\ length runs < 3)).
Proof.
  destruct (post_inputs_answers false "abc"
              [mkRound [] "Bob" Sample.quiet;
               mkRound [Background 0 [ProcessExit 0]; Reap] "30" Sample.quiet;
               mkRound [] "31" Sample.quiet] Sample.world_running) as [H _].
  - apply sample_registry_ok.
  - repeat constructor; intros [].
  - exact H.
Defined.

(** ** /input when the process ends during the window *)

(** X24: when [provide_input] finds the process running, feeds it, and
    answers COMPLETED, the answer carries every line captured in the
    window followed by every line still queued at that moment, per stream
    and in order; the session object is left with an empty output queue,
    marked complete, holding that output and error text, and with the pill
    as the last entry of its input queue. *)
Theorem provide_input_completed_drains IS_WINDOWS win data w r s out err code w' :
  execution_sessions w !! default "" (req_session_id data) = Some r ->
  objects w !! r = Some s ->
  exited s = false ->
  provide_input IS_WINDOWS win data w = ((Completed out err, code), w') ->
  let '(session, outs, errs) :=
    sample win (with_waiting false (inq_put (Some (default "" (req_input data))) s)) in
  out = Text.join Text.newline (outs ++ lines_of output (output_queue session))
  /\ err = Text.join Text.newline (errs ++ lines_of error (output_queue session))
  /\ exists s', objects w' !! r = Some s'
                /\ output_queue s' = []
                /\ is_complete s' = true
                /\ final_output s' = out
                /\ error_output s' = err
                /\ last (input_queue s') = Some None.
Proof.
  intros Hreg Hobj Hex. unfold provide_input. rewrite Hreg, Hobj, Hex.
  destruct (sample win _) as [[session outs] errs].
  destruct (exited session); [|done].
  unfold drain_now. rewrite drain_queue_spec. simpl.
  intros H. simplify_eq. split; [done|]. split; [done|].
  eexists. split; [apply lookup_insert_eq|]. simpl.
  repeat split. unfold put. apply last_snoc.
Qed.

Lemma provide_input_completed_drains_witness :
  let '(session, outs, errs) :=
    sample (mkWindow [InputWriterTurn; StdoutRead (ReadLine "Hello Ann");
                      StdoutRead (ReadLine "Bye"); ProcessExit 0] [[]] [])
      (with_waiting false (inq_put (Some "Ann") Sample.running)) in
  "Hello Ann" +:+ Text.newline +:+ "Bye"
  = Text.join Text.newline (outs ++ lines_of output (output_queue session))
  /\ "" = Text.join Text.newline (errs ++ lines_of error (output_queue session))
  /\ exists s',
      objects (provide_input false
                 (mkWindow [InputWriterTurn; StdoutRead (ReadLine "Hello Ann");
                            StdoutRead (ReadLine "Bye"); ProcessExit 0] [[]] [])
                 (Sample.to_abc "Ann") Sample.world_running).2 !! 0 = Some s'
      /\ output_queue s' = []
      /\ is_complete s' = true
      /\ final_output s' = "Hello Ann" +:+ Text.newline +:+ "Bye"
      /\ error_output s' = ""
      /\ last (input_queue s') = Some None.
Proof.
  apply (provide_input_completed_drains false
           (mkWindow [InputWriterTurn; StdoutRead (ReadLine "Hello Ann");
                      StdoutRead (ReadLine "Bye"); ProcessExit 0] [[]] [])
           (Sample.to_abc "Ann") Sample.world_running 0 Sample.running
           ("Hello Ann" +:+ Text.newline +:+ "Bye") "" 200
           (provide_input false
              (mkWindow [InputWriterTurn; StdoutRead (ReadLine "Hello Ann");
                         StdoutRead (ReadLine "Bye"); ProcessExit 0] [[]] [])
              (Sample.to_abc "Ann") Sample.world_running).2);
    [reflexivity..|].
  apply pair_with_snd. vm_compute. reflexivity.
Defined.

(** ** Reachable worlds *)

(** X25: after any sequence of start, input, status and terminate
    requests, reaper passes and worker activity, starting with an empty
    registry, every registered id is bound to a live session object. *)
Theorem reachable_registry_ok IS_WINDOWS qs fs :
  registry_ok (serve_all IS_WINDOWS qs (mkWorld ∅ ∅ fs)).
Proof. apply serve_all_registry_ok. by intros id r H. Qed.

(** ** CodeExecutor *)

(** X26: what is run is what was compiled.  For c and cpp the compile
    command reads the code file and writes to exactly the path that the
    run command executes; for python there is no compile command and the
    interpreter is run on the code file; and for each of the three
    languages the code file gets that language's extension. *)
Theorem commands_agree IS_WINDOWS filepath language executable_path :
  language ∈ ["python"; "c"; "cpp"] ->
  (language = "python" ->
     get_compile_command IS_WINDOWS filepath language executable_path = None
     /\ get_run_command IS_WINDOWS filepath language (Some executable_path)
        = [Some "python"; Some filepath]
     /\ get_file_extension language = ".py")
  /\ (language <> "python" ->
     (exists compiler,
         get_compile_command IS_WINDOWS filepath language executable_path
         = Some [compiler; filepath; "-o"; executable_path])
     /\ get_run_command IS_WINDOWS filepath language (Some executable_path)
        = [Some executable_path]
     /\ get_file_extension language = "." +:+ language).
Proof.
  intros Hlang. unfold get_compile_command, get_run_command, get_file_extension.
  apply elem_of_cons in Hlang as [->|Hlang]; [by split|].
  apply elem_of_cons in Hlang as [->|Hlang];
    [|apply list_elem_of_singleton in Hlang as ->];
    (split; [done|]); intros _; destruct IS_WINDOWS; simpl; eauto.
Qed.

Lemma commands_agree_witness :
  (exists compiler,
      get_compile_command true "code.cpp" "cpp" "program.exe"
      = Some [compiler; "code.cpp"; "-o"; "program.exe"])
  /\ get_run_command true "code.cpp" "cpp" (Some "program.exe") = [Some "program.exe"]
  /\ get_file_extension "cpp" = ".cpp".
Proof.
  destruct (commands_agree true "code.cpp" "cpp" "program.exe") as [_ H].
  - apply list_elem_of_further, list_elem_of_further, list_elem_of_here.
  - apply H. discriminate.
Defined.

(** ** /status: what one call does (C6) *)

(** C6: on a registered session [check_status] takes, in one pass and
    without waiting, exactly the entries queued at that moment: the answer
    carries their texts, and what stays queued is only what the readers
    add afterwards.  If the process has exited it answers COMPLETED with
    that text and finalizes: the id is removed, every path of the
    session's [temp_files] is gone and no file is created, the feeder gets
    its pill, the session is marked complete.  Otherwise it answers RUNNING
    with that text and the flag as the workers have left it; registry and
    files are as before, and the stored session is the session with its
    queue emptied and nothing else changed by the handler, so the flag is
    never written.  Other ids and other session objects are untouched. *)
Theorem check_status_frame IS_WINDOWS settle id w r s :
  execution_sessions w !! id = Some r ->
  objects w !! r = Some s ->
  let outs := Text.join Text.newline (lines_of output (output_queue s)) in
  let errs := Text.join Text.newline (lines_of error (output_queue s)) in
  let resp := (check_status IS_WINDOWS settle id w).1 in
  let w' := (check_status IS_WINDOWS settle id w).2 in
  (exited (acts settle s) = true ->
     resp = (Completed outs errs, 200)
     /\ execution_sessions w' !! id = None
     /\ (forall p, p ∈ temp_files s -> files w' !! p = None)
     /\ (forall p b, files w' !! p = Some b -> files w !! p = Some b)
     /\ exists s', objects w' !! r = Some s'
                   /\ input_queue s' = input_queue (acts settle s) ++ [None]
                   /\ output_queue (acts settle s) = output_queue s ++ output_queue s'
                   /\ is_complete s' = true
                   /\ is_waiting_for_input s' = is_waiting_for_input (acts settle s))
  /\ (exited (acts settle s) = false ->
     resp = (Running None outs errs (is_waiting_for_input (acts settle s)), 200)
     /\ execution_sessions w' = execution_sessions w
     /\ files w' = files w
     /\ exists s', lookup_session w' id = Some (r, s')
                   /\ s' = acts settle (with_output_queue [] s)
                   /\ output_queue (acts settle s) = output_queue s ++ output_queue s'
                   /\ is_waiting_for_input s' = is_waiting_for_input (acts settle s))
  /\ (forall id', id' <> id -> execution_sessions w' !! id' = execution_sessions w !! id')
  /\ (forall r', r' <> r -> objects w' !! r' = objects w !! r').
Proof.
  intros Hreg Hobj. cbv zeta. unfold check_status. rewrite Hreg, Hobj.
  unfold drain_now. rewrite drain_queue_spec. simpl.
  change (with_output_queue [] s) with (core s).
  rewrite exited_acts_core.
  destruct (acts_static settle (core s)) as (_ & Htf & _). simpl in Htf.
  pose proof (acts_queue settle s) as Hq.
  split; [|split; [|split]].
  - intros Hex. rewrite Hex. simpl. split; [done|].
    split; [apply lookup_delete_eq|]. rewrite Htf.
    split; [by intros p Hp; apply cleanup_listed_gone|].
    split; [intros p b; apply cleanup_lookup|].
    eexists. rewrite lookup_insert_eq. split; [done|]. simpl. unfold put.
    rewrite input_queue_acts_core, waiting_acts_core. done.
  - intros Hex. rewrite Hex. simpl. rewrite waiting_acts_core.
    split; [done|]. split; [done|]. split; [done|].
    eexists. unfold lookup_session. simpl. rewrite Hreg, lookup_insert_eq.
    split; [done|]. split; [done|]. split; [done|]. apply waiting_acts_core.
  - intros id' Hne. destruct (exited (acts settle s)); simpl; [|done].
    by apply lookup_delete_ne.
  - intros r' Hne. destruct (exited (acts settle s)); simpl; by apply lookup_insert_ne.
Qed.

Lemma check_status_frame_witness :
  ((check_status false [] "abc" Sample.world_queued).1
   = (Running None ("a" +:+ Text.newline +:+ "b") "e" true, 200)
   /\ files (check_status false [] "abc" Sample.world_queued).2 = Sample.scratch
   /\ exists s',
       lookup_session (check_status false [] "abc" Sample.world_queued).2 "abc"
       = Some (0, s')
       /\ output_queue s' = []
       /\ is_waiting_for_input s' = true)
  /\ ((check_status false [ProcessExit 0] "abc" Sample.world_queued).1
      = (Completed ("a" +:+ Text.newline +:+ "b") "e", 200)
      /\ execution_sessions (check_status false [ProcessExit 0] "abc" Sample.world_queued).2
           !! "abc" = None
      /\ files (check_status false [ProcessExit 0] "abc" Sample.world_queued).2
           !! "/tmp/x/code.py" = None
      /\ exists s',
          objects (check_status false [ProcessExit 0] "abc" Sample.world_queued).2 !! 0
          = Some s'
          /\ output_queue s' = []
          /\ input_queue s' = [None]).
Proof.
  split.
  - destruct (check_status_frame false [] "abc" Sample.world_queued 0 Sample.queued)
      as (_ & H & _); [reflexivity..|].
    destruct (H eq_refl) as (Hresp & _ & Hfiles & s' & Hs' & -> & _ & Hflag).
    split; [exact Hresp|]. split; [exact Hfiles|].
    eexists. split; [exact Hs'|]. split; reflexivity.
  - destruct (check_status_frame false [ProcessExit 0] "abc" Sample.world_queued 0
                Sample.queued) as (H & _); [reflexivity..|].
    destruct (H eq_refl) as (Hresp & Hgone & Hfiles & _ & s' & Hs' & Hin & Hout & _).
    split; [exact Hresp|]. split; [exact Hgone|].
    split; [apply Hfiles, list_elem_of_further, list_elem_of_here|].
    exists s'. split; [exact Hs'|]. split; [|exact Hin].
    change (output_queue Sample.queued = output_queue Sample.queued ++ output_queue s')
      in Hout.
    destruct (output_queue s'); [done|].
    apply (f_equal length) in Hout. rewrite length_app in Hout. simpl in Hout. lia.
Defined.
